(** * Text casting and copy-session driver of the PostgreSQL bulk loader

    A shallow embedding of [src/postgres_copy_to.cpp]: the quoting rules
    ([NeedsQuotes], [EscapeQuotes], [QuoteAndEscapeIfNeeded]), the
    nested-type text casters ([CastListToPostgresArray],
    [CastStructToPostgres], [CastBlobToPostgres], [CastToPostgresVarchar])
    and the copy session driver ([PostgresCopyState::Initialize],
    [BeginCopyTo], [CopyData], [FinishCopyTo], [CopyChunk]).

    Strings are [String.string] (a [std::string] is a sequence of bytes, a
    byte is an [ascii]); the C++ reference parameter [string &result] that
    the helpers append to becomes an accumulator that is passed in and
    returned.  Columnar vectors are lists of rows read by index; a read
    past the end of a buffer has no defined behaviour in the source and is
    [None] in the model.  The libpq connection is a scripted environment:
    the state records what each successive call of a primitive will return
    and logs every call that is made. *)

From Stdlib Require Import String Ascii List Arith ZArith Lia Bool.
From Stdlib Require Import DecimalString.
From ExtLib Require Import Structures.Monad Data.Monads.OptionMonad.
Import ListNotations.
Import MonadNotation.

Local Open Scope string_scope.
Local Open Scope monad_scope.

Set Warnings "-register-all".

(** ** Counted loops

    Every loop of the source has the shape
    [for (idx_t c = 0; c < n; c++) body], the body updating local state.
    [for_loop body c n s] runs the body at [c], [c+1], ..., [c+n-1]. *)

Fixpoint for_loop {T : Type} (body : nat -> T -> T) (c n : nat) (s : T) : T :=
  match n with
  | O => s
  | S n' => for_loop body (S c) n' (body c s)
  end.

(** The same loop with a body that can fail (a read out of bounds). *)
Fixpoint for_loopM {T : Type} (body : nat -> T -> option T) (c n : nat) (s : T)
  : option T :=
  match n with
  | O => Some s
  | S n' =>
      match body c s with
      | Some s' => for_loopM body (S c) n' s'
      | None => None
      end
  end.

(** ** Quoting and escaping rules *)

Module Quoting.

(** [isspace] of <ctype.h> in the default "C" locale: space, and the five
    controls \t \n \v \f \r (codes 9 to 13).  No byte above 127 is
    whitespace in that locale. *)
Definition isspace (ch : ascii) : bool :=
  let n := nat_of_ascii ch in
  ((n =? 32) || ((9 <=? n) && (n <=? 13)))%nat.

(** [to_quote[c]] on a [std::string]: the byte at position [c]; position
    [size()] holds the terminating NUL.  Every call site of the source
    passes [size = to_quote.size()], so no index past it is ever read. *)
Definition at_ (s : string) (c : nat) : ascii :=
  match String.get c s with
  | Some ch => ch
  | None => zero
  end.

(** The double quote character (code 34). *)
Definition dquote : ascii := ascii_of_nat 34.

(** The characters of the [switch] in [NeedsQuotes]. *)
Definition is_list_or_struct_char (ch : ascii) : bool :=
  existsb (Ascii.eqb ch)
    [dquote; "\"%char; "{"%char; "}"%char; "("%char; ")"%char; ","%char].

(** The scanning loop of [NeedsQuotes]: returns [true] from inside the
    loop at the first special character, [false] when the loop runs out.
    [n] counts the iterations that remain. *)
Fixpoint NeedsQuotes_loop (to_quote : string) (c n : nat) : bool :=
  match n with
  | O => false
  | S n' =>
      if is_list_or_struct_char (at_ to_quote c) then true
      else NeedsQuotes_loop to_quote (S c) n'
  end.

Definition NeedsQuotes (to_quote : string) (size : nat) : bool :=
  if (size <=? 0)%nat then true
  else if isspace (at_ to_quote 0) then true
  else if isspace (at_ to_quote (size - 1)) then true
  else NeedsQuotes_loop to_quote 0 size.

(** The characters of the [switch] in [EscapeQuotes]. *)
Definition is_quote_or_backslash (ch : ascii) : bool :=
  existsb (Ascii.eqb ch) [dquote; "\"%char].

Definition push_back (result : string) (ch : ascii) : string :=
  result ++ String ch EmptyString.

Definition EscapeQuotes (to_escape : string) (result : string) (size : nat)
  : string :=
  for_loop
    (fun c result =>
       let result :=
         if is_quote_or_backslash (at_ to_escape c) then result ++ "\"
         else result in
       push_back result (at_ to_escape c))
    0 size result.

Definition QuoteAndEscapeIfNeeded (to_quote : string) (result : string)
  (size : nat) : string :=
  if negb (NeedsQuotes to_quote size) then result ++ to_quote
  else
    let result := push_back result dquote in
    let result := EscapeQuotes to_quote result size in
    push_back result dquote.

(** What a call site gets for a [string_t child]: the text appended to an
    empty buffer, with [size = child.GetSize()]. *)
Definition quoted (v : string) : string :=
  QuoteAndEscapeIfNeeded v EmptyString (String.length v).

(** *** The quoting grammar, read back

    The escaped form written structurally: every double quote and every
    backslash gets a backslash in front of it. *)
Fixpoint escaped (v : string) : string :=
  match v with
  | EmptyString => EmptyString
  | String ch rest =>
      if is_quote_or_backslash ch then String "\"%char (String ch (escaped rest))
      else String ch (escaped rest)
  end.

(** Undoing the backslash prefixes: a backslash makes the next byte
    literal. *)
Fixpoint unescape (s : string) : string :=
  match s with
  | EmptyString => EmptyString
  | String ch rest =>
      if Ascii.eqb ch "\"%char then
        match rest with
        | EmptyString => EmptyString
        | String ch' rest' => String ch' (unescape rest')
        end
      else String ch (unescape rest)
  end.

(** Dropping the last byte of a token. *)
Fixpoint drop_last (s : string) : string :=
  match s with
  | EmptyString => EmptyString
  | String ch rest =>
      match rest with
      | EmptyString => EmptyString
      | String _ _ => String ch (drop_last rest)
      end
  end.

(** Reading a token back: a token that opens with a double quote is
    stripped of its outer quotes and unescaped, any other token stands for
    itself. *)
Definition parse_token (s : string) : string :=
  match s with
  | String ch rest =>
      if Ascii.eqb ch dquote then unescape (drop_last rest) else s
  | EmptyString => s
  end.

(** A stricter reader that scans for the closing quote instead of
    trusting the token's last byte: it fails on a token whose closing quote
    is missing, or is followed by more bytes, or whose final backslash
    escapes nothing. *)
Fixpoint scan_quoted (s : string) : option string :=
  match s with
  | EmptyString => None
  | String ch rest =>
      if Ascii.eqb ch dquote then
        match rest with
        | EmptyString => Some EmptyString
        | String _ _ => None
        end
      else if Ascii.eqb ch "\"%char then
        match rest with
        | EmptyString => None
        | String ch' rest' =>
            match scan_quoted rest' with
            | Some v => Some (String ch' v)
            | None => None
            end
        end
      else
        match scan_quoted rest with
        | Some v => Some (String ch v)
        | None => None
        end
  end.

Definition scan_token (s : string) : option string :=
  match s with
  | String ch rest => if Ascii.eqb ch dquote then scan_quoted rest else Some s
  | EmptyString => Some s
  end.

End Quoting.

(** ** Nested-type text caster *)

Module Casting.
Import Quoting.

(** Type ids.  [LIST], [STRUCT] and [BLOB] are the three cases that
    [CastToPostgresVarchar] names; every other id reaches its [default]
    branch. *)
Inductive ScalarTypeId : Type :=
  BOOLEAN | INTEGER | BIGINT | DOUBLE | VARCHAR.

Inductive LogicalTypeId : Type :=
  | LIST
  | STRUCT
  | BLOB
  | SCALAR (id : ScalarTypeId).

Definition is_LIST (id : LogicalTypeId) : bool :=
  match id with LIST => true | _ => false end.

(** [list_entry_t]: where the elements of one list row sit in the child
    buffer. *)
Record list_entry_t : Type := mk_list_entry { le_offset : nat; le_length : nat }.

(** The payload of one row of a scalar column. *)
Inductive scalar_t : Type :=
  | bool_val (b : bool)
  | int_val (z : Z)
  | double_val (mantissa exponent : Z)
  | string_val (s : string).

(** A flat vector.  A row is [None] when its validity bit says null; the
    payload of a null row is never read by the source.
    - a list vector has one [list_entry_t] per row and a single child
      vector of [list_size] elements shared by all rows;
    - a struct vector has a validity bit per row ([true] is valid) and
      one child vector per field, all of the parent's row count;
    - a blob vector has one [string_t] per row, read as raw bytes. *)
Inductive Vector : Type :=
  | ListVector (list_entries : list (option list_entry_t))
               (child : Vector) (list_size : nat)
  | StructVector (validity : list bool) (entries : list Vector)
  | BlobVector (data : list (option string))
  | ScalarVector (id : ScalarTypeId) (data : list (option scalar_t)).

Definition GetType (v : Vector) : LogicalTypeId :=
  match v with
  | ListVector _ _ _ => LIST
  | StructVector _ _ => STRUCT
  | BlobVector _ => BLOB
  | ScalarVector id _ => SCALAR id
  end.

(** Structural induction on vectors that also covers the fields of a
    struct. *)
Section VectorInduction.

Variable P : Vector -> Prop.
Hypothesis P_list :
  forall list_entries child list_size,
    P child -> P (ListVector list_entries child list_size).
Hypothesis P_struct :
  forall validity entries, Forall P entries -> P (StructVector validity entries).
Hypothesis P_blob : forall data, P (BlobVector data).
Hypothesis P_scalar : forall id data, P (ScalarVector id data).

Fixpoint Vector_nested_ind (v : Vector) : P v :=
  match v with
  | ListVector list_entries child list_size =>
      P_list list_entries child list_size (Vector_nested_ind child)
  | StructVector validity entries =>
      P_struct validity entries
        ((fix fields (l : list Vector) : Forall P l :=
            match l with
            | [] => Forall_nil P
            | x :: l' => Forall_cons x (Vector_nested_ind x) (fields l')
            end) entries)
  | BlobVector data => P_blob data
  | ScalarVector id data => P_scalar id data
  end.

End VectorInduction.

(** The entry of a non-null list row lies inside the child buffer. *)
Definition entry_in_range (list_size : nat) (row : option list_entry_t)
  : bool :=
  match row with
  | None => true
  | Some e => (le_offset e + le_length e <=? list_size)%nat
  end.

(** A vector that can be read for [size] rows: every buffer has at least
    [size] rows, every list entry of a non-null row lies inside the child
    buffer, and the children can be read for the rows their parent reads
    ([list_size] rows of a list child, [size] rows of a struct field). *)
Fixpoint well_formed (v : Vector) (size : nat) {struct v} : bool :=
  match v with
  | ListVector list_entries child list_size =>
      (size <=? List.length list_entries)%nat
      && forallb (entry_in_range list_size) (firstn size list_entries)
      && well_formed child list_size
  | StructVector validity entries =>
      (size <=? List.length validity)%nat
      && forallb (fun field => well_formed field size) entries
  | BlobVector data => (size <=? List.length data)%nat
  | ScalarVector _ data => (size <=? List.length data)%nat
  end.

(** The rows of a flat VARCHAR vector the casters write.  Row [r] is
    written once, for [r = 0, 1, ..., size-1] in this order, so the result
    is built by appending rows. *)
Definition VarcharVector : Type := list (option string).

Definition SetNull (v : VarcharVector) : VarcharVector := (v ++ [None])%list.
Definition AddString (v : VarcharVector) (s : string) : VarcharVector :=
  (v ++ [Some s])%list.

(** Casting the children of a struct, in field order: the first loop of
    [CastStructToPostgres]. *)
Definition cast_each {A B : Type} (f : A -> option B)
  : list A -> option (list B) :=
  fix go (l : list A) : option (list B) :=
    match l with
    | [] => Some []
    | x :: l' =>
        match f x with
        | Some y =>
            match go l' with
            | Some ys => Some (y :: ys)
            | None => None
            end
        | None => None
        end
    end.

Definition HEX_STRING : string := "0123456789ABCDEF".

(** The inner loop of [CastBlobToPostgres]: [blob_data[c]] is the byte as
    an unsigned number. *)
Definition blob_str_of (blob : string) : string :=
  for_loop
    (fun c blob_str =>
       let b := nat_of_ascii (at_ blob c) in
       let blob_str := push_back blob_str (at_ HEX_STRING (b / 16)) in
       push_back blob_str (at_ HEX_STRING (b mod 16)))
    0 (String.length blob) "\x".

Definition CastBlobToPostgres (input_data : list (option string)) (size : nat)
  : option VarcharVector :=
  for_loopM
    (fun r result =>
       row <- nth_error input_data r ;;
       match row with
       | None => ret (SetNull result)
       | Some blob => ret (AddString result (blob_str_of blob))
       end)
    0 size [].

Section Casters.

(** [VectorOperations::Cast], the engine's generic cast of a scalar column
    to VARCHAR.  It is not part of this unit. *)
Variable VectorOperations_Cast :
  ScalarTypeId -> list (option scalar_t) -> nat -> option VarcharVector.

(** The element loop of [CastListToPostgresArray] for one row. *)
Definition list_row (skip_quoting : bool) (child_varchar : VarcharVector)
  (list_entry : list_entry_t) : option string :=
  result <-
    for_loopM
      (fun list_idx result =>
         let result := if (0 <? list_idx)%nat then result ++ "," else result in
         let child_idx := le_offset list_entry + list_idx in
         child <- nth_error child_varchar child_idx ;;
         match child with
         | None => ret (result ++ "NULL")
         | Some child =>
             if skip_quoting then ret (result ++ child)
             else ret (QuoteAndEscapeIfNeeded child result (String.length child))
         end)
      0 (le_length list_entry) "{" ;;
  ret (result ++ "}").

Definition CastListToPostgresArray
  (CastToPostgresVarchar : Vector -> nat -> option VarcharVector)
  (list_entries : list (option list_entry_t)) (child_data : Vector)
  (child_count : nat) (size : nat) : option VarcharVector :=
  let skip_quoting := is_LIST (GetType child_data) in
  child_varchar <- CastToPostgresVarchar child_data child_count ;;
  for_loopM
    (fun r varchar_vector =>
       row <- nth_error list_entries r ;;
       match row with
       | None => ret (SetNull varchar_vector)
       | Some list_entry =>
           result <- list_row skip_quoting child_varchar list_entry ;;
           ret (AddString varchar_vector result)
       end)
    0 size [].

(** The field loop of [CastStructToPostgres] for one row. *)
Definition struct_row (child_varchar_vectors : list VarcharVector) (r : nat)
  : option string :=
  result <-
    for_loopM
      (fun c result =>
         let result := if (0 <? c)%nat then result ++ "," else result in
         child_vector <- nth_error child_varchar_vectors c ;;
         child <- nth_error child_vector r ;;
         match child with
         | None => ret (result ++ EmptyString)
         | Some child =>
             ret (QuoteAndEscapeIfNeeded child result (String.length child))
         end)
      0 (List.length child_varchar_vectors) "(" ;;
  ret (result ++ ")").

Definition CastStructToPostgres
  (CastToPostgresVarchar : Vector -> nat -> option VarcharVector)
  (validity : list bool) (child_vectors : list Vector) (size : nat)
  : option VarcharVector :=
  child_varchar_vectors <-
    cast_each (fun child => CastToPostgresVarchar child size) child_vectors ;;
  for_loopM
    (fun r varchar_vector =>
       valid <- nth_error validity r ;;
       if negb valid then ret (SetNull varchar_vector)
       else
         result <- struct_row child_varchar_vectors r ;;
         ret (AddString varchar_vector result))
    0 size [].

Fixpoint CastToPostgresVarchar (input : Vector) (size : nat) {struct input}
  : option VarcharVector :=
  match input with
  | ListVector list_entries child list_size =>
      CastListToPostgresArray CastToPostgresVarchar list_entries child
        list_size size
  | StructVector validity entries =>
      CastStructToPostgres CastToPostgresVarchar validity entries size
  | BlobVector data => CastBlobToPostgres data size
  | ScalarVector id data => VectorOperations_Cast id data size
  end.

End Casters.

End Casting.

(** ** Copy session driver *)

Module Session.
Import Quoting.

Inductive PostgresCopyFormat : Type :=
  | BINARY
  | TEXT
  | OTHER_FORMAT. (* an enumerator the [switch] of [BeginCopyTo] does not name *)

Record PostgresCopyState : Type := mk_copy_state {
  format : PostgresCopyFormat;
  has_null_byte_replacement : bool;
  null_byte_replacement : string
}.

(** A setting's [Value]: SQL NULL or a string. *)
Inductive Value : Type :=
  | NullValue
  | StringValue (s : string).

(** [ClientContext]: the settings visible to the session.
    [TryGetCurrentSetting name] is [None] when the lookup returns false. *)
Record ClientContext : Type := mk_context {
  TryGetCurrentSetting : string -> option Value
}.

Inductive Exception : Type :=
  | InternalException (msg : string)
  | runtime_error (msg : string).

(** *** The libpq connection *)

Inductive ExecStatusType : Type :=
  | PGRES_EMPTY_QUERY
  | PGRES_COMMAND_OK
  | PGRES_TUPLES_OK
  | PGRES_COPY_OUT
  | PGRES_COPY_IN
  | PGRES_BAD_RESPONSE
  | PGRES_NONFATAL_ERROR
  | PGRES_FATAL_ERROR.

Definition ExecStatusType_eqb (a b : ExecStatusType) : bool :=
  match a, b with
  | PGRES_EMPTY_QUERY, PGRES_EMPTY_QUERY
  | PGRES_COMMAND_OK, PGRES_COMMAND_OK
  | PGRES_TUPLES_OK, PGRES_TUPLES_OK
  | PGRES_COPY_OUT, PGRES_COPY_OUT
  | PGRES_COPY_IN, PGRES_COPY_IN
  | PGRES_BAD_RESPONSE, PGRES_BAD_RESPONSE
  | PGRES_NONFATAL_ERROR, PGRES_NONFATAL_ERROR
  | PGRES_FATAL_ERROR, PGRES_FATAL_ERROR => true
  | _, _ => false
  end.

Record PGresult : Type := mk_result {
  PQresultStatus : ExecStatusType;
  result_error_message : string
}.

(** [PQresultErrorMessage] accepts the null pointer and answers the empty
    string for it. *)
Definition PQresultErrorMessage (result : option PGresult) : string :=
  match result with
  | Some r => result_error_message r
  | None => EmptyString
  end.

(** The calls the driver makes on the connection. *)
Inductive PQcall : Type :=
  | PQexec (query : string)
  | PQputCopyData (buffer : string) (nbytes : Z)
  | PQputCopyEnd
  | PQgetResult.

(** The connection as the driver sees it: for each primitive, what its
    successive calls will return (a finite script of the server's and the
    socket's behaviour), and the calls that have returned so far, oldest
    first. *)
Record PGconn : Type := mk_conn {
  exec_script : list (option PGresult);
  putCopyData_script : list Z;
  putCopyEnd_script : list Z;
  getResult_script : list (option PGresult);
  calls : list PQcall
}.

Record World : Type := mk_world {
  conn : PGconn;
  state : PostgresCopyState
}.

(** How a call ends: it returns, it throws, or it is still waiting for a
    primitive whose script has run out ([Blocked]: neither a value nor an
    exception has reached the caller). *)
Inductive Outcome (A : Type) : Type :=
  | Returns (a : A)
  | Throws (e : Exception)
  | Blocked.
Arguments Returns {A} a.
Arguments Throws {A} e.
Arguments Blocked {A}.

Definition M (A : Type) : Type := World -> Outcome A * World.

#[export] Instance Monad_M : Monad M := {|
  ret := fun _ a w => (Returns a, w);
  bind := fun _ _ c k w =>
    match c w with
    | (Returns a, w') => k a w'
    | (Throws e, w') => (Throws e, w')
    | (Blocked, w') => (Blocked, w')
    end
|}.

Definition throw {A : Type} (e : Exception) : M A := fun w => (Throws e, w).

Definition get_state : M PostgresCopyState := fun w => (Returns (state w), w).
Definition put_state (s : PostgresCopyState) : M unit :=
  fun w => (Returns tt, mk_world (conn w) s).
Definition GetConn : M PGconn := fun w => (Returns (conn w), w).
Definition put_conn (c : PGconn) : M unit :=
  fun w => (Returns tt, mk_world c (state w)).

(** [int(size)]: an [idx_t] converted to a 32-bit [int]. *)
Definition to_int (size : nat) : Z :=
  ((Z.of_nat size + 2 ^ 31) mod 2 ^ 32 - 2 ^ 31)%Z.

(** [s.c_str()] read back as a C string: the bytes before the first NUL. *)
Fixpoint c_str (s : string) : string :=
  match s with
  | EmptyString => EmptyString
  | String ch rest =>
      if Ascii.eqb ch zero then EmptyString else String ch (c_str rest)
  end.

Definition PQExecute (query : string) : M (option PGresult) :=
  c <- GetConn ;;
  match exec_script c with
  | [] => fun w => (Blocked, w)
  | result :: script =>
      put_conn (mk_conn script (putCopyData_script c) (putCopyEnd_script c)
                  (getResult_script c) (calls c ++ [PQexec query])) ;;
      ret result
  end.

Definition putCopyEnd : M Z :=
  c <- GetConn ;;
  match putCopyEnd_script c with
  | [] => fun w => (Blocked, w)
  | result :: script =>
      put_conn (mk_conn (exec_script c) (putCopyData_script c) script
                  (getResult_script c) (calls c ++ [PQputCopyEnd])) ;;
      ret result
  end.

Definition getResult : M (option PGresult) :=
  c <- GetConn ;;
  match getResult_script c with
  | [] => fun w => (Blocked, w)
  | result :: script =>
      put_conn (mk_conn (exec_script c) (putCopyData_script c)
                  (putCopyEnd_script c) script (calls c ++ [PQgetResult])) ;;
      ret result
  end.

(** The loop [do { result = PQputCopyData(...); } while (result == 0);]:
    one call per scripted return code, until a code other than zero.
    Returns that code ([None] when the script ends while the loop is still
    retrying), the rest of the script and the calls made. *)
Fixpoint CopyData_loop (buffer : string) (nbytes : Z) (script : list Z)
  (made : list PQcall) : option Z * list Z * list PQcall :=
  match script with
  | [] => (None, [], made)
  | result :: script' =>
      let made := (made ++ [PQputCopyData buffer nbytes])%list in
      if (result =? 0)%Z then CopyData_loop buffer nbytes script' made
      else (Some result, script', made)
  end.

Section Driver.

(** [PQerrorMessage(conn)]: the connection's latest error text. *)
Variable PQerrorMessage : PGconn -> string.

(** [KeywordHelper::WriteQuoted(text, quote)], the engine's identifier
    quoting. *)
Variable WriteQuoted : string -> ascii -> string.

(** What the record writers leave in their stream: the binary writer after
    [WriteHeader()], and each writer after [WriteFooter()], for a writer
    built over the given session state. *)
Variable BinaryWriter_Header : PostgresCopyState -> string.
Variable BinaryWriter_Footer : PostgresCopyState -> string.
Variable TextWriter_Footer : PostgresCopyState -> string.

(** The range-for loop of [Initialize]: does the string hold a NUL? *)
Fixpoint contains_null_byte (replacement_str : string) : bool :=
  match replacement_str with
  | EmptyString => false
  | String c rest =>
      if Ascii.eqb c zero then true else contains_null_byte rest
  end.

Definition Initialize (context : ClientContext) : M unit :=
  match TryGetCurrentSetting context "pg_null_byte_replacement" with
  | None => ret tt
  | Some replacement_value =>
      match replacement_value with
      | NullValue => ret tt
      | StringValue replacement_str =>
          if contains_null_byte replacement_str then
            throw (InternalException
                     "NULL byte replacement string cannot contain NULL values")
          else
            s <- get_state ;;
            put_state (mk_copy_state (format s) true replacement_str)
      end
  end.

Definition CopyData (buffer : string) (size : nat) : M unit :=
  c <- GetConn ;;
  match CopyData_loop buffer (to_int size) (putCopyData_script c) (calls c) with
  | (None, script, made) =>
      put_conn (mk_conn (exec_script c) script (putCopyEnd_script c)
                  (getResult_script c) made) ;;
      (fun w => (Blocked, w))
  | (Some result, script, made) =>
      put_conn (mk_conn (exec_script c) script (putCopyEnd_script c)
                  (getResult_script c) made) ;;
      if (result =? -1)%Z then
        c <- GetConn ;;
        throw (InternalException
                 ("Error during PQputCopyData: " ++ PQerrorMessage c))
      else ret tt
  end.

(** [CopyData(writer)]: the stream's bytes and its position. *)
Definition CopyData_writer (stream : string) : M unit :=
  CopyData stream (String.length stream).

Definition backspace : ascii := ascii_of_nat 8.

Definition is_empty (s : string) : bool :=
  match s with EmptyString => true | _ => false end.

Definition BeginCopyTo (context : ClientContext) (format_ : PostgresCopyFormat)
  (schema_name table_name : string) (column_names : list string) : M unit :=
  let query := "COPY " in
  let query :=
    if negb (is_empty schema_name)
    then query ++ (WriteQuoted schema_name dquote ++ ".")
    else query in
  let query := query ++ (WriteQuoted table_name dquote ++ " ") in
  let query :=
    if negb (Nat.eqb (List.length column_names) 0) then
      let query := query ++ "(" in
      let query :=
        for_loop
          (fun c query =>
             let query := if (0 <? c)%nat then query ++ ", " else query in
             query ++ WriteQuoted (nth c column_names EmptyString) dquote)
          0 (List.length column_names) query in
      query ++ ") "
    else query in
  let query := query ++ "FROM STDIN " in
  Initialize context ;;
  s <- get_state ;;
  put_state (mk_copy_state format_ (has_null_byte_replacement s)
               (null_byte_replacement s)) ;;
  s <- get_state ;;
  query <-
    match format s with
    | BINARY => ret (query ++ "BINARY")
    | TEXT => ret (query ++ ("TEXT (NULL '" ++ String backspace "')"))
    | OTHER_FORMAT =>
        throw (InternalException "Unsupported type for postgres copy format")
    end ;;
  let query := query ++ ")" in
  result <- PQExecute (c_str query) ;;
  match result with
  | Some r =>
      if ExecStatusType_eqb (PQresultStatus r) PGRES_COPY_IN then
        s <- get_state ;;
        match format s with
        | BINARY => CopyData_writer (BinaryWriter_Header s)
        | _ => ret tt
        end
      else
        throw (runtime_error
                 ("Failed to prepare COPY " ++ String dquote query
                    ++ String dquote ": " ++ PQresultErrorMessage result))
  | None =>
      throw (runtime_error
               ("Failed to prepare COPY " ++ String dquote query
                  ++ String dquote ": " ++ PQresultErrorMessage result))
  end.

Definition FinishCopyTo : M unit :=
  s <- get_state ;;
  match format s with
  | BINARY => CopyData_writer (BinaryWriter_Footer s)
  | TEXT => CopyData_writer (TextWriter_Footer s)
  | OTHER_FORMAT => ret tt
  end ;;
  result_code <- putCopyEnd ;;
  if negb (result_code =? 1)%Z then
    c <- GetConn ;;
    throw (InternalException ("Error during PQputCopyEnd: " ++ PQerrorMessage c))
  else
    result <- getResult ;;
    match result with
    | Some r =>
        if ExecStatusType_eqb (PQresultStatus r) PGRES_COMMAND_OK then ret tt
        else
          throw (runtime_error
                   ("Failed to copy data: " ++ PQresultErrorMessage result))
    | None =>
        throw (runtime_error
                 ("Failed to copy data: " ++ PQresultErrorMessage result))
    end.

End Driver.

End Session.

(** ** The literals as the specification words them

    Definitions that follow the prose of the specification, to compare the
    loops above with. *)

Module Literal.
Import Quoting Casting Session.

(** Position of a byte inside a text. *)
Definition first_char (s : string) : option ascii := String.get 0 s.
Definition last_char (s : string) : option ascii :=
  String.get (String.length s - 1) s.
Definition contains (s : string) (ch : ascii) : Prop :=
  exists i, String.get i s = Some ch.

(** The seven characters with a meaning inside array and composite
    literals. *)
Definition special_chars : list ascii :=
  [dquote; "\"%char; "{"%char; "}"%char; "("%char; ")"%char; ","%char].

(** Array literal: brace-delimited, comma-joined; a null element is the
    token NULL, any other element is quoted unless it is itself an array
    literal. *)
Definition array_element (skip_quoting : bool) (element : option string)
  : string :=
  match element with
  | None => "NULL"
  | Some text => if skip_quoting then text else quoted text
  end.

Definition array_literal (skip_quoting : bool) (elements : list (option string))
  : string :=
  "{" ++ String.concat "," (map (array_element skip_quoting) elements) ++ "}".

(** The elements [e0..en] of a list row: the slice of the child buffer
    that its entry designates. *)
Definition elements_of (child_varchar : VarcharVector) (e : list_entry_t)
  : list (option string) :=
  firstn (le_length e) (skipn (le_offset e) child_varchar).

Definition array_row (skip_quoting : bool) (child_varchar : VarcharVector)
  (row : option list_entry_t) : option string :=
  option_map
    (fun e => array_literal skip_quoting (elements_of child_varchar e)) row.

(** The segments of a joined text after the first one, each with its
    separator in front. *)
Definition tail_segments (sep : string) (segments : list string) : string :=
  String.concat EmptyString (map (fun x => sep ++ x) segments).

(** Composite literal: parenthesised, comma-joined; a null field is an
    empty segment, any other field goes through the quoting rule. *)
Definition composite_field (field : option string) : string :=
  match field with
  | None => EmptyString
  | Some text => quoted text
  end.

Definition composite_literal (fields : list (option string)) : string :=
  "(" ++ String.concat "," (map composite_field fields) ++ ")".

(** The fields of struct row [r]: row [r] of every child column, in field
    order ([None] when a child column has no such row). *)
Definition fields_at (child_varchar_vectors : list VarcharVector) (r : nat)
  : option (list (option string)) :=
  cast_each (fun child_vector => nth_error child_vector r)
    child_varchar_vectors.

(** Blob literal: backslash, x, then two uppercase hexadecimal digits per
    byte. *)
Definition hex_digit (n : nat) : ascii :=
  if (n <? 10)%nat then ascii_of_nat (nat_of_ascii "0"%char + n)
  else ascii_of_nat (nat_of_ascii "A"%char + (n - 10)).

Definition hex_pair (b : ascii) : string :=
  String (hex_digit (nat_of_ascii b / 16))
    (String (hex_digit (nat_of_ascii b mod 16)) EmptyString).

Definition blob_literal (bytes : list ascii) : string :=
  "\x" ++ String.concat EmptyString (map hex_pair bytes).

Definition blob_row (row : option string) : option string :=
  option_map (fun blob => blob_literal (list_ascii_of_string blob)) row.

(** Reading an uppercase hexadecimal digit back. *)
Definition hex_value (ch : ascii) : option nat :=
  let n := nat_of_ascii ch in
  if ((48 <=? n) && (n <=? 57))%nat then Some (n - 48)
  else if ((65 <=? n) && (n <=? 70))%nat then Some (n - 55)
  else None.

(** The COPY command text. *)
Definition format_clause (f : PostgresCopyFormat) : string :=
  match f with
  | BINARY => "BINARY"
  | TEXT => "TEXT (NULL '" ++ String backspace "')"
  | OTHER_FORMAT => EmptyString
  end.

Definition copy_command (quote_identifier : string -> string)
  (f : PostgresCopyFormat) (schema_name table_name : string)
  (column_names : list string) : string :=
  "COPY "
    ++ (if is_empty schema_name then EmptyString
        else quote_identifier schema_name ++ ".")
    ++ quote_identifier table_name ++ " "
    ++ match column_names with
       | [] => EmptyString
       | _ :: _ =>
           "(" ++ String.concat ", " (map quote_identifier column_names) ++ ") "
       end
    ++ "FROM STDIN " ++ format_clause f ++ ")".

(** The final result reports that the command succeeded; the reply to the
    COPY command says the server accepts copy data. *)
Definition command_ok (result : option PGresult) : bool :=
  match result with
  | Some r => ExecStatusType_eqb (PQresultStatus r) PGRES_COMMAND_OK
  | None => false
  end.

Definition accepts_copy_data (result : option PGresult) : bool :=
  match result with
  | Some r => ExecStatusType_eqb (PQresultStatus r) PGRES_COPY_IN
  | None => false
  end.

(** The footer for the session's format. *)
Definition footer_of (binary_footer text_footer : PostgresCopyState -> string)
  (s : PostgresCopyState) : string :=
  match format s with
  | BINARY => binary_footer s
  | TEXT => text_footer s
  | OTHER_FORMAT => EmptyString
  end.

(** The text has a NUL byte somewhere. *)
Definition has_null_byte (s : string) : Prop :=
  exists i, String.get i s = Some zero.

End Literal.

(** ** Concrete collaborators

    Instances of the engine and connection functions the driver is
    parameterised by, to run the model on concrete inputs. *)

Module Sample.
Import Quoting Casting Session.

Definition scalar_to_text (v : scalar_t) : string :=
  match v with
  | bool_val true => "true"
  | bool_val false => "false"
  | int_val z => NilZero.string_of_int (Z.to_int z)
  | double_val m e =>
      NilZero.string_of_int (Z.to_int m) ++ "e"
        ++ NilZero.string_of_int (Z.to_int e)
  | string_val s => s
  end.

(** A row-by-row cast to text that keeps null rows null. *)
Definition Cast (id : ScalarTypeId) (data : list (option scalar_t)) (size : nat)
  : option VarcharVector :=
  for_loopM
    (fun r result =>
       row <- nth_error data r ;;
       ret (result ++ [option_map scalar_to_text row])%list)
    0 size [].

(** Identifier quoting that doubles the quote character. *)
Fixpoint double_quotes (text : string) (quote : ascii) : string :=
  match text with
  | EmptyString => EmptyString
  | String ch rest =>
      if Ascii.eqb ch quote
      then String quote (String quote (double_quotes rest quote))
      else String ch (double_quotes rest quote)
  end.

Definition WriteQuoted (text : string) (quote : ascii) : string :=
  String quote (double_quotes text quote ++ String quote EmptyString).

Definition PQerrorMessage (c : PGconn) : string :=
  "connection lost after "
    ++ NilZero.string_of_uint (Nat.to_uint (List.length (calls c))) ++ " calls".

Definition byte_ff : ascii := ascii_of_nat 255.
Definition newline : ascii := ascii_of_nat 10.

Definition BinaryWriter_Header (s : PostgresCopyState) : string :=
  "PGCOPY" ++ String newline (String byte_ff (String (ascii_of_nat 13)
    (String newline (String zero
      (String zero (String zero (String zero (String zero
      (String zero (String zero (String zero (String zero EmptyString)))))))))))).

Definition BinaryWriter_Footer (s : PostgresCopyState) : string :=
  String byte_ff (String byte_ff EmptyString).

Definition TextWriter_Footer (s : PostgresCopyState) : string :=
  "\." ++ String newline EmptyString.

Definition idle_state : PostgresCopyState :=
  mk_copy_state OTHER_FORMAT false EmptyString.

Definition no_settings : ClientContext := mk_context (fun _ => None).

Definition setting (v : Value) : ClientContext :=
  mk_context (fun name =>
    if String.eqb name "pg_null_byte_replacement" then Some v else None).

Definition ok_result (st : ExecStatusType) : option PGresult :=
  Some (mk_result st EmptyString).

End Sample.

(** ** Reading literals back

    Readers for the texts the casters write, to state that nothing is
    lost: the top-level split of a comma-joined body, and the hexadecimal
    blob token. *)

Module Reading.
Import Quoting Literal.

Inductive scan_mode : Type :=
  | Plain     (* outside double quotes *)
  | Quoted    (* inside double quotes *)
  | Escaped.  (* inside double quotes, right after a backslash *)

(** Splitting the body of an array or composite literal at its commas: a
    comma between double quotes does not split, and inside the quotes a
    backslash makes the next byte literal.  [cur] is the segment read so
    far. *)
Fixpoint split_segments (s : string) (mode : scan_mode) (cur : string)
  : list string :=
  match s with
  | EmptyString => [cur]
  | String ch rest =>
      match mode with
      | Plain =>
          if Ascii.eqb ch ","%char then cur :: split_segments rest Plain EmptyString
          else if Ascii.eqb ch dquote
               then split_segments rest Quoted (push_back cur ch)
               else split_segments rest Plain (push_back cur ch)
      | Quoted =>
          if Ascii.eqb ch "\"%char
          then split_segments rest Escaped (push_back cur ch)
          else if Ascii.eqb ch dquote
               then split_segments rest Plain (push_back cur ch)
               else split_segments rest Quoted (push_back cur ch)
      | Escaped => split_segments rest Quoted (push_back cur ch)
      end
  end.

(** A token passes the split in one piece: read in front of any rest, it
    ends up whole in the current segment. *)
Definition passes (t : string) : Prop :=
  forall rest cur,
    split_segments (t ++ rest) Plain cur =
    split_segments rest Plain (cur ++ t).

(** Two array elements that are written the same way: the same element,
    or a null element and the text NULL. *)
Definition same_element (x y : option string) : Prop :=
  x = y
  \/ (x = None /\ y = Some "NULL")
  \/ (x = Some "NULL" /\ y = None).

(** Reading hexadecimal digit pairs back as bytes. *)
Fixpoint unhex (s : string) : option string :=
  match s with
  | EmptyString => Some EmptyString
  | String hi rest =>
      match rest with
      | EmptyString => None
      | String lo rest' =>
          match hex_value hi, hex_value lo, unhex rest' with
          | Some h, Some l, Some bytes =>
              Some (String (ascii_of_nat (16 * h + l)) bytes)
          | _, _, _ => None
          end
      end
  end.

(** Reading a blob token: backslash, x, then the digit pairs. *)
Definition read_blob (s : string) : option string :=
  match s with
  | String b (String x rest) =>
      if Ascii.eqb b "\"%char && Ascii.eqb x "x"%char then unhex rest
      else None
  | _ => None
  end.

Definition read_blob_row (row : option string) : option (option string) :=
  match row with
  | None => Some None
  | Some text =>
      match read_blob text with
      | Some bytes => Some (Some bytes)
      | None => None
      end
  end.

(** A blob as an element of an array or a field of a composite: the
    token between double quotes, its backslash doubled. *)
Definition quoted_blob_literal (bytes : list ascii) : string :=
  String dquote
    ("\\x" ++ String.concat EmptyString (map hex_pair bytes)
       ++ String dquote EmptyString).

(** A blob element of an array: the token NULL for a null, the quoted
    token otherwise. *)
Definition array_blob_element (element : option string) : string :=
  match element with
  | None => "NULL"
  | Some blob => quoted_blob_literal (list_ascii_of_string blob)
  end.

End Reading.

(** ** Row batches *)

Module Chunk.
Import Quoting Casting Session.

(** [DataChunk]: one flat vector per column and the row count
    ([chunk.size()]); [ColumnCount()] is the number of vectors. *)
Record DataChunk : Type := mk_chunk {
  chunk_data : list Vector;
  chunk_size : nat
}.

(** The casted chunk: the same, every column a VARCHAR vector. *)
Record VarcharChunk : Type := mk_varchar_chunk {
  varchar_data : list VarcharVector;
  varchar_size : nat
}.

Definition ColumnCount (chunk : DataChunk) : nat := List.length (chunk_data chunk).

(** [varchar_chunk.data[c]] written: the column replaced by the rows the
    cast produced; no column [c] is out of bounds. *)
Fixpoint set_column (columns : list VarcharVector) (c : nat)
  (rows : VarcharVector) : option (list VarcharVector) :=
  match columns, c with
  | [], _ => None
  | _ :: columns', O => Some (rows :: columns')
  | column :: columns', S c' =>
      match set_column columns' c' rows with
      | Some columns'' => Some (column :: columns'')
      | None => None
      end
  end.

Section CopyChunk.

Variable PQerrorMessage : PGconn -> string.
Variable VectorOperations_Cast :
  ScalarTypeId -> list (option scalar_t) -> nat -> option VarcharVector.

(** [PostgresBinaryWriter]: a writer built over the session state, its
    three row operations, and the bytes in its stream. *)
Variable BinaryWriter : Type.
Variable PostgresBinaryWriter : PostgresCopyState -> BinaryWriter.
Variable Binary_BeginRow : nat -> BinaryWriter -> BinaryWriter.
Variable Binary_WriteValue : Vector -> nat -> BinaryWriter -> BinaryWriter.
Variable Binary_FinishRow : BinaryWriter -> BinaryWriter.
Variable Binary_stream : BinaryWriter -> string.

(** [PostgresTextWriter], likewise. *)
Variable TextWriter : Type.
Variable PostgresTextWriter : PostgresCopyState -> TextWriter.
Variable Text_WriteSeparator : TextWriter -> TextWriter.
Variable Text_WriteValue : VarcharVector -> nat -> TextWriter -> TextWriter.
Variable Text_FinishRow : TextWriter -> TextWriter.
Variable Text_stream : TextWriter -> string.

(** The binary branch: the rows written one after the other. *)
Definition binary_rows (chunk : DataChunk) (writer : BinaryWriter)
  : option BinaryWriter :=
  for_loopM
    (fun r writer =>
       let writer := Binary_BeginRow (ColumnCount chunk) writer in
       writer <-
         for_loopM
           (fun c writer =>
              col <- nth_error (chunk_data chunk) c ;;
              ret (Binary_WriteValue col r writer))
           0 (ColumnCount chunk) writer ;;
       ret (Binary_FinishRow writer))
    0 (chunk_size chunk) writer.

(** The text branch, first half: the casted chunk is set up on its first
    use and reset afterwards, must have the chunk's column count, and gets
    every column cast to text. *)
Definition cast_columns (chunk : DataChunk) (varchar_chunk : VarcharChunk)
  : option VarcharChunk :=
  let varchar_chunk :=
    if (List.length (varchar_data varchar_chunk) =? 0)%nat
    then mk_varchar_chunk (repeat [] (ColumnCount chunk)) 0
    else mk_varchar_chunk (map (fun _ => []) (varchar_data varchar_chunk)) 0 in
  if negb (ColumnCount chunk =? List.length (varchar_data varchar_chunk))%nat
  then None
  else
    columns <-
      for_loopM
        (fun c columns =>
           col <- nth_error (chunk_data chunk) c ;;
           rows <- CastToPostgresVarchar VectorOperations_Cast col
                     (chunk_size chunk) ;;
           set_column columns c rows)
        0 (ColumnCount chunk) (varchar_data varchar_chunk) ;;
    ret (mk_varchar_chunk columns (chunk_size chunk)).

(** The text branch, second half: the rows written one after the
    other. *)
Definition text_rows (chunk : DataChunk) (varchar_chunk : VarcharChunk)
  (writer : TextWriter) : option TextWriter :=
  for_loopM
    (fun r writer =>
       writer <-
         for_loopM
           (fun c writer =>
              let writer :=
                if (0 <? c)%nat then Text_WriteSeparator writer else writer in
              col <- nth_error (varchar_data varchar_chunk) c ;;
              ret (Text_WriteValue col r writer))
           0 (ColumnCount chunk) writer ;;
       ret (Text_FinishRow writer))
    0 (chunk_size chunk) writer.

(** [CopyChunk].  The vectors of the model are flat, so [chunk.Flatten()]
    changes nothing.  The result is [None] when the assertion on the
    column counts does not hold or a read leaves its buffer; otherwise it
    is how the call ends, with the casted chunk as the call leaves it. *)
Definition CopyChunk (chunk : DataChunk) (varchar_chunk : VarcharChunk)
  (w : World) : option ((Outcome unit * World) * VarcharChunk) :=
  match format (state w) with
  | BINARY =>
      writer <- binary_rows chunk (PostgresBinaryWriter (state w)) ;;
      ret (CopyData_writer PQerrorMessage (Binary_stream writer) w,
           varchar_chunk)
  | TEXT =>
      varchar_chunk <- cast_columns chunk varchar_chunk ;;
      writer <- text_rows chunk varchar_chunk (PostgresTextWriter (state w)) ;;
      ret (CopyData_writer PQerrorMessage (Text_stream writer) w,
           varchar_chunk)
  | OTHER_FORMAT => ret ((Returns tt, w), varchar_chunk)
  end.

End CopyChunk.

(** Row [r] of the casted columns, field by field. *)
Definition row_fields (columns : list VarcharVector) (r : nat)
  : list (option string) :=
  map (fun col => nth r col None) columns.

(** Text rows: the fields of a row joined by the separator, then the row
    end; the rows one after the other. *)
Definition text_buffer (separator row_end : string)
  (render : option string -> string) (columns : list VarcharVector)
  (size : nat) : string :=
  String.concat EmptyString
    (map (fun r =>
            String.concat separator (map render (row_fields columns r))
              ++ row_end)
       (seq 0 size)).

(** A text writer to run the model with: the session state and the
    bytes written; tab between fields, the backspace marker for a null
    and the text itself otherwise, newline after a row. *)
Definition sample_writer : Type := (PostgresCopyState * string)%type.

Definition tab : string := String (ascii_of_nat 9) EmptyString.
Definition newline : string := String (ascii_of_nat 10) EmptyString.

Definition sample_render (s : PostgresCopyState) (v : option string) : string :=
  match v with
  | None => String backspace EmptyString
  | Some text => text
  end.

Definition sample_new (s : PostgresCopyState) : sample_writer :=
  (s, EmptyString).
Definition sample_WriteSeparator (w : sample_writer) : sample_writer :=
  (fst w, snd w ++ tab).
Definition sample_WriteValue (col : VarcharVector) (r : nat)
  (w : sample_writer) : sample_writer :=
  match nth_error col r with
  | Some v => (fst w, snd w ++ sample_render (fst w) v)
  | None => w
  end.
Definition sample_FinishRow (w : sample_writer) : sample_writer :=
  (fst w, snd w ++ newline).

End Chunk.

(** * Properties *)

(** ** Counted loops *)

Section LoopFacts.
Context {T : Type}.

(** Two loops whose bodies agree up to a shift of the index. *)
Lemma for_loop_shift (f g : nat -> T -> T) (k : nat) :
  (forall c s, f (k + c) s = g c s) ->
  forall n c s, for_loop f (k + c) n s = for_loop g c n s.
Proof.
  intros Hfg n. induction n as [|n IH]; intros c s; simpl.
  - reflexivity.
  - rewrite Hfg. rewrite <- IH. f_equal. lia.
Qed.

End LoopFacts.

(** A loop that appends one row per iteration builds the rows in index
    order. *)
Lemma for_loopM_rows {B : Type} (body : nat -> list B -> option (list B))
  (row : nat -> B) :
  forall n c acc,
    (forall r acc', c <= r < c + n -> body r acc' = Some (acc' ++ [row r])%list) ->
    for_loopM body c n acc = Some (acc ++ map row (seq c n))%list.
Proof.
  induction n as [|n IH]; intros c acc Hbody; simpl.
  - now rewrite app_nil_r.
  - rewrite Hbody by lia. rewrite IH.
    + now rewrite <- app_assoc.
    + intros r acc' Hr. apply Hbody. lia.
Qed.

(** ** Quoting and escaping rules *)

Module QuotingFacts.
Import Quoting Literal.

Lemma at_cons (a : ascii) (s : string) (c : nat) :
  at_ (String a s) (S c) = at_ s c.
Proof. reflexivity. Qed.

Lemma get_lt (s : string) :
  forall i, i < String.length s -> exists ch, String.get i s = Some ch.
Proof.
  induction s as [|a s IH]; intros i Hi; simpl in *; [lia|].
  destruct i as [|i]; [now exists a|]. apply IH. lia.
Qed.

Lemma at_get (s : string) (i : nat) (ch : ascii) :
  String.get i s = Some ch -> at_ s i = ch.
Proof. unfold at_. now intros ->. Qed.

Lemma is_special_In (ch : ascii) :
  is_list_or_struct_char ch = true <-> In ch special_chars.
Proof.
  unfold is_list_or_struct_char. rewrite existsb_exists. split.
  - intros [x [Hin Heq]]. apply Ascii.eqb_eq in Heq. now subst.
  - intros Hin. exists ch. split; [assumption | apply Ascii.eqb_refl].
Qed.

Lemma NeedsQuotes_loop_cons (a : ascii) (s : string) :
  forall n c, NeedsQuotes_loop (String a s) (S c) n = NeedsQuotes_loop s c n.
Proof.
  induction n as [|n IH]; intros c; simpl; [reflexivity|].
  rewrite IH. reflexivity.
Qed.

(** The scanning loop answers true exactly when one of the bytes is
    special. *)
Lemma NeedsQuotes_loop_true (s : string) :
  NeedsQuotes_loop s 0 (String.length s) = true <->
  exists i ch, String.get i s = Some ch /\ is_list_or_struct_char ch = true.
Proof.
  induction s as [|a s IH].
  - simpl. split; [discriminate | intros [i [ch [H _]]]; discriminate].
  - cbn [String.length NeedsQuotes_loop]. rewrite NeedsQuotes_loop_cons.
    change (at_ (String a s) 0) with a.
    destruct (is_list_or_struct_char a) eqn:Ha.
    + split; [|reflexivity]. intros _. exists 0, a. now split.
    + rewrite IH. split.
      * intros [i [ch [Hget Hch]]]. exists (S i), ch. now split.
      * intros [i [ch [Hget Hch]]]. destruct i as [|i].
        -- simpl in Hget. injection Hget as ->. congruence.
        -- exists i, ch. now split.
Qed.

(** [isspace] is true of exactly six bytes. *)
Lemma isspace_true (ch : ascii) :
  isspace ch = true <->
  In (nat_of_ascii ch) [32; 9; 10; 11; 12; 13].
Proof.
  unfold isspace. cbv zeta.
  rewrite orb_true_iff, andb_true_iff, Nat.eqb_eq, !Nat.leb_le. simpl.
  lia.
Qed.

(** C4.  [NeedsQuotes] is true exactly when the text is empty, or its
    first or its last character is whitespace, or it contains one of the
    seven special characters; and the five sample texts evaluate as
    stated. *)
Theorem NeedsQuotes_iff (text : string) :
  (NeedsQuotes text (String.length text) = true <->
     text = EmptyString
     \/ (exists ch, first_char text = Some ch /\ isspace ch = true)
     \/ (exists ch, last_char text = Some ch /\ isspace ch = true)
     \/ (exists ch, In ch special_chars /\ contains text ch))
  /\ NeedsQuotes EmptyString 0 = true
  /\ NeedsQuotes " a" 2 = true
  /\ NeedsQuotes "a " 2 = true
  /\ NeedsQuotes "abc" 3 = false
  /\ NeedsQuotes "a,b" 3 = true.
Proof.
  split; [|repeat split; reflexivity].
  destruct text as [|a s].
  - split; [now left | reflexivity].
  - assert (Hlast : exists l, last_char (String a s) = Some l).
    { apply get_lt. simpl. lia. }
    destruct Hlast as [l Hl].
    assert (Hscan := NeedsQuotes_loop_true (String a s)).
    unfold NeedsQuotes.
    replace (String.length (String a s) <=? 0)%nat with false by reflexivity.
    change (at_ (String a s) 0) with a.
    rewrite (at_get _ _ _ Hl).
    split.
    + intros H. right.
      destruct (isspace a) eqn:Ha; [left; exists a; now split|].
      destruct (isspace l) eqn:Hsl; [right; left; exists l; now split|].
      right; right. apply Hscan in H. destruct H as [i [ch [Hget Hch]]].
      exists ch. split; [now apply is_special_In | now exists i].
    + intros [H | [[ch [Hf Hch]] | [[ch [Hf Hch]] | [ch [Hin [i Hget]]]]]].
      * discriminate.
      * unfold first_char in Hf. simpl in Hf. injection Hf as ->.
        now rewrite Hch.
      * rewrite Hl in Hf. injection Hf as ->. rewrite Hch.
        now destruct (isspace a).
      * destruct (isspace a); [reflexivity|].
        destruct (isspace l); [reflexivity|].
        apply Hscan. exists i, ch. split; [assumption|].
        now apply is_special_In.
Qed.

(** *** Appending to the result buffer *)

Lemma append_assoc (a b c : string) : (a ++ b) ++ c = a ++ (b ++ c).
Proof. induction a as [|x a IH]; simpl; [reflexivity | now rewrite IH]. Qed.

Lemma append_nil_r (a : string) : a ++ EmptyString = a.
Proof. induction a as [|x a IH]; simpl; [reflexivity | now rewrite IH]. Qed.

Lemma length_append (a b : string) :
  String.length (a ++ b) = String.length a + String.length b.
Proof. induction a as [|x a IH]; simpl; [reflexivity | now rewrite IH]. Qed.

Lemma append_inv_head (a b c : string) : a ++ b = a ++ c -> b = c.
Proof.
  induction a as [|x a IH]; simpl; intros H; [assumption|].
  injection H as H. now apply IH.
Qed.

(** The body of the loop of [EscapeQuotes], one byte at a time. *)
Lemma EscapeQuotes_cons (a : ascii) (s result : string) (n : nat) :
  EscapeQuotes (String a s) result (S n) =
  EscapeQuotes s
    (push_back (if is_quote_or_backslash a then result ++ "\" else result) a) n.
Proof.
  unfold EscapeQuotes. cbn [for_loop].
  change (at_ (String a s) 0) with a.
  apply (for_loop_shift _ _ 1). intros c r. reflexivity.
Qed.

(** [EscapeQuotes] appends the escaped form of its input. *)
Lemma EscapeQuotes_escaped (s : string) :
  forall result,
    EscapeQuotes s result (String.length s) = result ++ escaped s.
Proof.
  induction s as [|a s IH]; intros result.
  - cbn. now rewrite append_nil_r.
  - cbn [String.length]. rewrite EscapeQuotes_cons, IH. cbn [escaped].
    unfold push_back.
    destruct (is_quote_or_backslash a); now rewrite !append_assoc.
Qed.

(** [QuoteAndEscapeIfNeeded] only appends: the buffer it is given is kept,
    followed by what it would write to an empty buffer. *)
Lemma QuoteAndEscapeIfNeeded_appends (to_quote result : string) :
  QuoteAndEscapeIfNeeded to_quote result (String.length to_quote) =
  result ++ quoted to_quote.
Proof.
  unfold quoted, QuoteAndEscapeIfNeeded.
  destruct (NeedsQuotes to_quote (String.length to_quote)); cbn [negb].
  - unfold push_back. rewrite !EscapeQuotes_escaped.
    now rewrite !append_assoc.
  - reflexivity.
Qed.

Lemma quoted_eq (v : string) :
  quoted v =
  if NeedsQuotes v (String.length v)
  then String dquote (escaped v ++ String dquote EmptyString)
  else v.
Proof.
  unfold quoted, QuoteAndEscapeIfNeeded.
  destruct (NeedsQuotes v (String.length v)); cbn [negb].
  - unfold push_back. now rewrite EscapeQuotes_escaped.
  - reflexivity.
Qed.

(** *** Reading a quoted token back *)

Lemma is_quote_or_backslash_eqb (ch : ascii) :
  is_quote_or_backslash ch = Ascii.eqb ch dquote || Ascii.eqb ch "\"%char.
Proof. unfold is_quote_or_backslash. simpl. now rewrite orb_false_r. Qed.

Lemma unescape_escaped (v : string) : unescape (escaped v) = v.
Proof.
  induction v as [|ch v IH]; [reflexivity|].
  cbn [escaped]. rewrite is_quote_or_backslash_eqb.
  destruct (Ascii.eqb ch "\"%char) eqn:Hbs.
  - rewrite orb_true_r. cbn. now rewrite IH.
  - rewrite orb_false_r. destruct (Ascii.eqb ch dquote) eqn:Hq.
    + cbn. now rewrite IH.
    + cbn [unescape]. rewrite Hbs. now rewrite IH.
Qed.

Lemma drop_last_push_back (s : string) (ch : ascii) :
  drop_last (s ++ String ch EmptyString) = s.
Proof.
  induction s as [|a s IH]; [reflexivity|].
  cbn [append drop_last]. rewrite IH.
  destruct s; reflexivity.
Qed.

Lemma scan_quoted_escaped (v : string) :
  scan_quoted (escaped v ++ String dquote EmptyString) = Some v.
Proof.
  induction v as [|ch v IH].
  - reflexivity.
  - cbn [escaped]. rewrite is_quote_or_backslash_eqb.
    destruct (Ascii.eqb ch dquote) eqn:Hq.
    + apply Ascii.eqb_eq in Hq. subst ch. cbn. cbn in IH. now rewrite IH.
    + destruct (Ascii.eqb ch "\"%char) eqn:Hbs.
      * apply Ascii.eqb_eq in Hbs. subst ch. cbn. cbn in IH. now rewrite IH.
      * cbn [orb append scan_quoted]. rewrite Hq, Hbs. now rewrite IH.
Qed.

(** A text that needs no quotes does not open with a double quote. *)
Lemma unquoted_head (a : ascii) (s : string) :
  NeedsQuotes (String a s) (String.length (String a s)) = false ->
  Ascii.eqb a dquote = false.
Proof.
  intros H. destruct (Ascii.eqb a dquote) eqn:Hq; [|reflexivity].
  apply Ascii.eqb_eq in Hq. subst a.
  unfold NeedsQuotes in H. cbn [String.length Nat.leb] in H.
  destruct (isspace (at_ (String dquote s) 0)); [discriminate|].
  destruct (isspace (at_ (String dquote s) (S (String.length s) - 1)));
    [discriminate|].
  cbn in H. discriminate.
Qed.

Lemma parse_token_quoted (v : string) : parse_token (quoted v) = v.
Proof.
  rewrite quoted_eq.
  destruct (NeedsQuotes v (String.length v)) eqn:Hneeds.
  - unfold parse_token. rewrite Ascii.eqb_refl.
    now rewrite drop_last_push_back, unescape_escaped.
  - destruct v as [|a s]; [discriminate|].
    unfold parse_token. now rewrite (unquoted_head _ _ Hneeds).
Qed.

Lemma scan_token_quoted (v : string) : scan_token (quoted v) = Some v.
Proof.
  rewrite quoted_eq.
  destruct (NeedsQuotes v (String.length v)) eqn:Hneeds.
  - unfold scan_token. rewrite Ascii.eqb_refl. apply scan_quoted_escaped.
  - destruct v as [|a s]; [discriminate|].
    unfold scan_token. now rewrite (unquoted_head _ _ Hneeds).
Qed.

(** The quoting rule is injective: two texts with the same token are the
    same text. *)
Corollary quoted_inj (v w : string) : quoted v = quoted w -> v = w.
Proof.
  intros H. rewrite <- (parse_token_quoted v), <- (parse_token_quoted w).
  now rewrite H.
Qed.

(** A token is never empty: an empty text is written as two quotes. *)
Lemma quoted_nonempty (v : string) : quoted v <> EmptyString.
Proof.
  rewrite quoted_eq. destruct v as [|a s].
  - cbn. discriminate.
  - destruct (NeedsQuotes _ _); discriminate.
Qed.

(** C3.  [QuoteAndEscapeIfNeeded] appends to its buffer the text itself
    when [NeedsQuotes] is false, and otherwise the text with every double
    quote and backslash prefixed by a backslash, between two double
    quotes; reading that token back (outer quotes stripped, backslash
    prefixes undone) gives the text again, also for a reader that scans
    for the closing quote. *)
Theorem QuoteAndEscapeIfNeeded_lossless (v result : string) :
  QuoteAndEscapeIfNeeded v result (String.length v) = result ++ quoted v
  /\ quoted v =
       (if NeedsQuotes v (String.length v)
        then String dquote (escaped v ++ String dquote EmptyString)
        else v)
  /\ parse_token (quoted v) = v
  /\ scan_token (quoted v) = Some v.
Proof.
  split; [apply QuoteAndEscapeIfNeeded_appends|].
  split; [apply quoted_eq|].
  split; [apply parse_token_quoted | apply scan_token_quoted].
Qed.

End QuotingFacts.

(** ** Nested-type text caster *)

Module CastingFacts.
Import Quoting Casting Literal QuotingFacts.

(** *** Rows read by index *)

Lemma skipn_nth_error {A : Type} (l : list A) :
  forall i x, nth_error l i = Some x -> skipn i l = x :: skipn (S i) l.
Proof.
  induction l as [|a l IH]; intros i x H.
  - destruct i; discriminate.
  - destruct i as [|i]; simpl in *.
    + now injection H as ->.
    + now apply IH.
Qed.

Lemma nth_error_lt {A : Type} (l : list A) (i : nat) :
  i < List.length l -> exists x, nth_error l i = Some x.
Proof.
  intros H. destruct (nth_error l i) as [x|] eqn:E; [now exists x|].
  apply nth_error_None in E. lia.
Qed.

(** Rows [c], ..., [c+n-1] of a buffer, computed from the row index, are
    the slice of the buffer. *)
Lemma map_seq_slice {A B : Type} (l : list A) (row : nat -> B) (g : A -> B) :
  (forall r x, nth_error l r = Some x -> row r = g x) ->
  forall n c, c + n <= List.length l ->
    map row (seq c n) = map g (firstn n (skipn c l)).
Proof.
  intros Hrow n. induction n as [|n IH]; intros c Hc; [reflexivity|].
  destruct (nth_error_lt l c) as [x Hx]; [lia|].
  rewrite (skipn_nth_error l c x Hx). cbn [seq map firstn].
  rewrite (Hrow c x Hx). f_equal. apply IH. lia.
Qed.

(** The outer loops append one row per iteration, so what they return has
    [size] rows. *)
Lemma for_loopM_length {B : Type} (body : nat -> list B -> option (list B)) :
  (forall r acc acc', body r acc = Some acc' ->
                      List.length acc' = S (List.length acc)) ->
  forall n c acc out,
    for_loopM body c n acc = Some out ->
    List.length out = List.length acc + n.
Proof.
  intros Hbody n. induction n as [|n IH]; intros c acc out H; simpl in H.
  - injection H as <-. lia.
  - destruct (body c acc) as [acc'|] eqn:Hb; [|discriminate].
    apply IH in H. apply Hbody in Hb. lia.
Qed.

(** *** Blobs *)

Lemma HEX_STRING_digit (n : nat) : n < 16 -> at_ HEX_STRING n = hex_digit n.
Proof.
  intros H. do 16 (destruct n as [|n]; [reflexivity|]). lia.
Qed.

Lemma hex_value_digit (n : nat) : n < 16 -> hex_value (hex_digit n) = Some n.
Proof.
  intros H. do 16 (destruct n as [|n]; [reflexivity|]). lia.
Qed.

Lemma byte_bounded (b : ascii) : nat_of_ascii b < 256.
Proof. apply nat_ascii_bounded. Qed.

Lemma byte_nibbles (b : ascii) :
  nat_of_ascii b / 16 < 16 /\ nat_of_ascii b mod 16 < 16.
Proof.
  pose proof (byte_bounded b). split.
  - apply Nat.Div0.div_lt_upper_bound. lia.
  - apply Nat.mod_upper_bound. lia.
Qed.

Lemma blob_loop_cons (a : ascii) (s acc : string) (n : nat) :
  for_loop
    (fun c blob_str =>
       let b := nat_of_ascii (at_ (String a s) c) in
       let blob_str := push_back blob_str (at_ HEX_STRING (b / 16)) in
       push_back blob_str (at_ HEX_STRING (b mod 16)))
    1 n acc =
  for_loop
    (fun c blob_str =>
       let b := nat_of_ascii (at_ s c) in
       let blob_str := push_back blob_str (at_ HEX_STRING (b / 16)) in
       push_back blob_str (at_ HEX_STRING (b mod 16)))
    0 n acc.
Proof. apply (for_loop_shift _ _ 1). intros c r. reflexivity. Qed.

Lemma blob_loop_spec (blob : string) :
  forall acc,
    for_loop
      (fun c blob_str =>
         let b := nat_of_ascii (at_ blob c) in
         let blob_str := push_back blob_str (at_ HEX_STRING (b / 16)) in
         push_back blob_str (at_ HEX_STRING (b mod 16)))
      0 (String.length blob) acc =
    acc ++ String.concat EmptyString (map hex_pair (list_ascii_of_string blob)).
Proof.
  induction blob as [|a s IH]; intros acc.
  - cbn. now rewrite append_nil_r.
  - cbn [String.length for_loop]. rewrite blob_loop_cons, IH.
    change (at_ (String a s) 0) with a. cbv zeta.
    destruct (byte_nibbles a) as [Hhi Hlo].
    rewrite (HEX_STRING_digit _ Hhi), (HEX_STRING_digit _ Hlo).
    unfold push_back. rewrite !append_assoc. f_equal.
    cbn [list_ascii_of_string map]. unfold hex_pair at 2.
    destruct (map hex_pair (list_ascii_of_string s)); reflexivity.
Qed.

Lemma blob_str_of_spec (blob : string) :
  blob_str_of blob = blob_literal (list_ascii_of_string blob).
Proof. unfold blob_str_of, blob_literal. apply blob_loop_spec. Qed.

Lemma CastBlobToPostgres_rows (input_data : list (option string)) (size : nat) :
  size <= List.length input_data ->
  CastBlobToPostgres input_data size =
  Some (map blob_row (firstn size input_data)).
Proof.
  intros Hsize. unfold CastBlobToPostgres.
  rewrite (for_loopM_rows _
             (fun r => match nth_error input_data r with
                       | Some row => blob_row row
                       | None => None
                       end)).
  - cbn [app]. f_equal.
    rewrite (map_seq_slice input_data _ blob_row); [reflexivity| |simpl; lia].
    intros r x ->. reflexivity.
  - intros r acc Hr. destruct (nth_error_lt input_data r) as [row Hrow]; [lia|].
    rewrite Hrow. cbn. destruct row as [blob|]; cbn.
    + unfold AddString. now rewrite blob_str_of_spec.
    + reflexivity.
Qed.

(** C5.  [CastBlobToPostgres] keeps a null row null and turns a row of
    bytes into backslash, x, and one pair of uppercase hexadecimal digits
    per byte in order, with nothing else added; the two digits of a pair
    read back as the byte.  The bytes 0x0A, 0xFF give \x0AFF. *)
Theorem CastBlobToPostgres_spec :
  (forall (input_data : list (option string)) (size : nat),
     size <= List.length input_data ->
     CastBlobToPostgres input_data size =
     Some (map (option_map
                  (fun blob => blob_literal (list_ascii_of_string blob)))
               (firstn size input_data)))
  /\ (forall b : ascii,
        exists hi lo,
          hex_pair b = String (hex_digit hi) (String (hex_digit lo) EmptyString)
          /\ hex_value (hex_digit hi) = Some hi
          /\ hex_value (hex_digit lo) = Some lo
          /\ 16 * hi + lo = nat_of_ascii b)
  /\ CastBlobToPostgres
       [Some (String (ascii_of_nat 10) (String (ascii_of_nat 255) EmptyString))]
       1 = Some [Some "\x0AFF"].
Proof.
  split; [|split].
  - intros input_data size Hsize. now apply CastBlobToPostgres_rows.
  - intros b. destruct (byte_nibbles b) as [Hhi Hlo].
    exists (nat_of_ascii b / 16), (nat_of_ascii b mod 16).
    split; [reflexivity|].
    split; [now apply hex_value_digit|].
    split; [now apply hex_value_digit|].
    symmetry. apply Nat.div_mod_eq.
  - reflexivity.
Qed.

(** *** Joining segments with a separator *)

Lemma tail_segments_cons (sep x : string) (l : list string) :
  tail_segments sep (x :: l) = sep ++ x ++ tail_segments sep l.
Proof.
  unfold tail_segments. cbn [map].
  destruct (map (fun x0 => sep ++ x0) l) as [|s l0] eqn:E.
  - cbn. now rewrite !append_nil_r.
  - change (String.concat EmptyString ((sep ++ x) :: s :: l0))
      with ((sep ++ x) ++ EmptyString ++ String.concat EmptyString (s :: l0)).
    cbn [append]. now rewrite append_assoc.
Qed.

Lemma concat_cons (sep x : string) (l : list string) :
  String.concat sep (x :: l) = x ++ tail_segments sep l.
Proof.
  revert x. induction l as [|y l IH]; intros x.
  - cbn. now rewrite append_nil_r.
  - change (String.concat sep (x :: y :: l))
      with (x ++ sep ++ String.concat sep (y :: l)).
    now rewrite IH, tail_segments_cons.
Qed.

(** A loop that writes the separator before every segment but the first,
    then the segment, writes the segments joined by the separator. *)
Lemma join_loop_tail (sep : string) (body : nat -> string -> option string) :
  forall (segments : list string) (c : nat) (acc : string),
    (forall i x acc', nth_error segments i = Some x ->
                      body (S c + i) acc' = Some (acc' ++ sep ++ x)) ->
    for_loopM body (S c) (List.length segments) acc =
    Some (acc ++ tail_segments sep segments).
Proof.
  induction segments as [|x l IH]; intros c acc Hbody.
  - cbn. now rewrite append_nil_r.
  - cbn [List.length for_loopM].
    specialize (Hbody 0 x acc eq_refl) as H0.
    rewrite Nat.add_0_r in H0. rewrite H0.
    rewrite IH.
    + now rewrite tail_segments_cons, !append_assoc.
    + intros i y acc' Hi. specialize (Hbody (S i) y acc' Hi).
      now rewrite <- Hbody, Nat.add_succ_r.
Qed.

Lemma join_loop (sep : string) (body : nat -> string -> option string)
  (segments : list string) (acc : string) :
  (forall i x acc', nth_error segments i = Some x ->
     body i acc' =
     Some ((if (0 <? i)%nat then acc' ++ sep else acc') ++ x)) ->
  for_loopM body 0 (List.length segments) acc =
  Some (acc ++ String.concat sep segments).
Proof.
  intros Hbody. destruct segments as [|x l].
  - cbn. now rewrite append_nil_r.
  - cbn [List.length for_loopM]. rewrite (Hbody 0 x acc eq_refl).
    cbn [Nat.ltb Nat.leb]. rewrite (join_loop_tail sep).
    + now rewrite concat_cons, append_assoc.
    + intros i y acc' Hi. change (1 + i) with (S i).
      rewrite (Hbody (S i) y acc' Hi).
      cbn [Nat.ltb Nat.leb Nat.add]. now rewrite append_assoc.
Qed.

(** The same for a loop whose body cannot fail. *)
Lemma for_loopM_total {T : Type} (body : nat -> T -> T) :
  forall n c s,
    for_loopM (fun c s => Some (body c s)) c n s = Some (for_loop body c n s).
Proof.
  induction n as [|n IH]; intros c s; cbn; [reflexivity | apply IH].
Qed.

Lemma join_for_loop (sep : string) (body : nat -> string -> string)
  (segments : list string) (acc : string) :
  (forall i x acc', nth_error segments i = Some x ->
     body i acc' = (if (0 <? i)%nat then acc' ++ sep else acc') ++ x) ->
  for_loop body 0 (List.length segments) acc =
  acc ++ String.concat sep segments.
Proof.
  intros Hbody.
  assert (H : Some (for_loop body 0 (List.length segments) acc) =
              Some (acc ++ String.concat sep segments)).
  { rewrite <- for_loopM_total. apply join_loop.
    intros i x acc' Hi. now rewrite (Hbody i x acc' Hi). }
  now injection H.
Qed.

(** *** One list row *)

Lemma nth_error_map_Some {A B : Type} (f : A -> B) (l : list A) (i : nat)
  (y : B) :
  nth_error (map f l) i = Some y ->
  exists x, nth_error l i = Some x /\ f x = y.
Proof.
  rewrite nth_error_map. destruct (nth_error l i) as [x|]; cbn; intros H.
  - injection H as <-. now exists x.
  - discriminate.
Qed.

Lemma elements_of_length (child_varchar : VarcharVector) (e : list_entry_t) :
  le_offset e + le_length e <= List.length child_varchar ->
  List.length (elements_of child_varchar e) = le_length e.
Proof.
  intros H. unfold elements_of. rewrite length_firstn, length_skipn. lia.
Qed.

Lemma elements_of_nth (child_varchar : VarcharVector) (e : list_entry_t)
  (i : nat) (x : option string) :
  nth_error (elements_of child_varchar e) i = Some x ->
  nth_error child_varchar (le_offset e + i) = Some x.
Proof.
  unfold elements_of. rewrite nth_error_firstn.
  destruct (Nat.ltb i (le_length e)); [|discriminate].
  now rewrite nth_error_skipn.
Qed.

Lemma list_row_spec (skip_quoting : bool) (child_varchar : VarcharVector)
  (e : list_entry_t) :
  le_offset e + le_length e <= List.length child_varchar ->
  list_row skip_quoting child_varchar e =
  Some (array_literal skip_quoting (elements_of child_varchar e)).
Proof.
  intros Hrange. unfold list_row.
  rewrite <- (elements_of_length child_varchar e Hrange).
  rewrite <- (length_map (array_element skip_quoting)).
  rewrite (join_loop ",").
  - cbn. unfold array_literal. reflexivity.
  - intros i x acc Hi. apply nth_error_map_Some in Hi.
    destruct Hi as [el [Hel <-]].
    rewrite (elements_of_nth _ _ _ _ Hel). cbn.
    destruct el as [text|]; cbn; [|reflexivity].
    destruct skip_quoting; [reflexivity|].
    now rewrite QuoteAndEscapeIfNeeded_appends.
Qed.

(** *** One struct row *)

Lemma cast_each_length {A B : Type} (f : A -> option B) :
  forall l ys, cast_each f l = Some ys -> List.length ys = List.length l.
Proof.
  induction l as [|x l IH]; intros ys H; cbn in H.
  - now injection H as <-.
  - destruct (f x) as [y|]; [|discriminate].
    destruct (cast_each f l) as [ys'|] eqn:E; [|discriminate].
    injection H as <-. cbn. now rewrite (IH ys').
Qed.

Lemma cast_each_nth {A B : Type} (f : A -> option B) :
  forall l ys i y,
    cast_each f l = Some ys -> nth_error ys i = Some y ->
    exists x, nth_error l i = Some x /\ f x = Some y.
Proof.
  induction l as [|x l IH]; intros ys i y H Hi; cbn in H.
  - injection H as <-. destruct i; discriminate.
  - destruct (f x) as [y0|] eqn:Hfx; [|discriminate].
    destruct (cast_each f l) as [ys'|] eqn:E; [|discriminate].
    injection H as <-. destruct i as [|i]; cbn in Hi.
    + injection Hi as ->. exists x. now split.
    + apply (IH ys' i y eq_refl Hi).
Qed.

Lemma cast_each_total {A B : Type} (f : A -> option B) :
  forall l, (forall x, In x l -> f x <> None) ->
            exists ys, cast_each f l = Some ys.
Proof.
  induction l as [|x l IH]; intros Hf.
  - now exists [].
  - destruct (f x) as [y|] eqn:Hfx.
    + destruct IH as [ys Hys]; [intros z Hz; apply Hf; now right|].
      exists (y :: ys). cbn. now rewrite Hfx, Hys.
    + exfalso. apply (Hf x); [now left | assumption].
Qed.

Lemma struct_row_spec (child_varchar_vectors : list VarcharVector) (r : nat)
  (fields : list (option string)) :
  fields_at child_varchar_vectors r = Some fields ->
  struct_row child_varchar_vectors r = Some (composite_literal fields).
Proof.
  intros Hfields. unfold struct_row.
  pose proof (cast_each_length _ _ _ Hfields) as Hlen.
  unfold VarcharVector in *. rewrite <- Hlen.
  rewrite <- (length_map composite_field).
  rewrite (join_loop ",").
  - cbn. unfold composite_literal. reflexivity.
  - intros i x acc Hi. apply nth_error_map_Some in Hi.
    destruct Hi as [field [Hfield <-]].
    destruct (cast_each_nth _ _ _ _ _ Hfields Hfield) as [cv [Hcv Hrow]].
    rewrite Hcv. cbn. rewrite Hrow. cbn.
    destruct field as [text|]; cbn.
    + now rewrite QuoteAndEscapeIfNeeded_appends.
    + now rewrite !append_nil_r.
Qed.

(** A segment in the middle of a joined text: what surrounds it does not
    depend on it. *)
Lemma tail_segments_app (sep : string) (l1 l2 : list string) :
  tail_segments sep (l1 ++ l2) = tail_segments sep l1 ++ tail_segments sep l2.
Proof.
  induction l1 as [|x l1 IH].
  - reflexivity.
  - cbn [app]. rewrite !tail_segments_cons, IH. now rewrite !append_assoc.
Qed.

Lemma concat_middle (l1 l2 : list string) :
  exists before after,
    forall x, String.concat "," (l1 ++ x :: l2) = before ++ x ++ after.
Proof.
  destruct l1 as [|a l1].
  - exists EmptyString, (tail_segments "," l2). intros x. cbn [app].
    now rewrite concat_cons.
  - exists (a ++ tail_segments "," l1 ++ ","), (tail_segments "," l2). intros x.
    cbn [app]. rewrite concat_cons, tail_segments_app, tail_segments_cons.
    now rewrite !append_assoc.
Qed.

Lemma cast_each_In {A B : Type} (f : A -> option B) (l : list A)
  (ys : list B) (y : B) :
  cast_each f l = Some ys -> In y ys -> exists x, In x l /\ f x = Some y.
Proof.
  intros H Hy. apply In_nth_error in Hy. destruct Hy as [i Hi].
  destruct (cast_each_nth f l ys i y H Hi) as [x [Hx Hfx]].
  exists x. split; [|assumption]. now apply nth_error_In with i.
Qed.

Section CasterFacts.

Variable VectorOperations_Cast :
  ScalarTypeId -> list (option scalar_t) -> nat -> option VarcharVector.

Lemma CastListToPostgresArray_rows (list_entries : list (option list_entry_t))
  (child : Vector) (child_count size : nat) (child_varchar : VarcharVector) :
  CastToPostgresVarchar VectorOperations_Cast child child_count =
    Some child_varchar ->
  size <= List.length list_entries ->
  (forall r e, r < size -> nth_error list_entries r = Some (Some e) ->
               le_offset e + le_length e <= List.length child_varchar) ->
  CastToPostgresVarchar VectorOperations_Cast
    (ListVector list_entries child child_count) size =
  Some (map (array_row (is_LIST (GetType child)) child_varchar)
          (firstn size list_entries)).
Proof.
  intros Hchild Hsize Hrange.
  cbn [CastToPostgresVarchar]. unfold CastListToPostgresArray.
  rewrite Hchild. cbn [bind Monad_option].
  rewrite (for_loopM_rows _
             (fun r => match nth_error list_entries r with
                       | Some row =>
                           array_row (is_LIST (GetType child)) child_varchar row
                       | None => None
                       end)).
  - cbn [app]. f_equal.
    rewrite (map_seq_slice list_entries _
               (array_row (is_LIST (GetType child)) child_varchar));
      [reflexivity| |simpl; lia].
    intros r x ->. reflexivity.
  - intros r acc Hr.
    destruct (nth_error_lt list_entries r) as [row Hrow]; [lia|].
    rewrite Hrow. destruct row as [e|]; [|reflexivity].
    rewrite list_row_spec; [reflexivity|].
    apply (Hrange r e); [lia | assumption].
Qed.

(** C1.  [CastListToPostgresArray] keeps a null row null and turns a row
    of elements into an opening brace, the elements joined by commas, and
    a closing brace; an element is the cast child text passed through
    [QuoteAndEscapeIfNeeded], or taken verbatim when the child column is
    itself a list, and a null element is the token NULL.  An empty list
    gives the two braces alone.  The integers 1, NULL, 3 give {1,NULL,3};
    the strings a,b and NULL give the first one quoted, then NULL. *)
Theorem CastListToPostgresArray_spec :
  (forall (list_entries : list (option list_entry_t)) (child : Vector)
          (child_count size : nat) (child_varchar : VarcharVector),
      CastToPostgresVarchar VectorOperations_Cast child child_count =
        Some child_varchar ->
      size <= List.length list_entries ->
      (forall r e, r < size -> nth_error list_entries r = Some (Some e) ->
                   le_offset e + le_length e <= List.length child_varchar) ->
      CastToPostgresVarchar VectorOperations_Cast
        (ListVector list_entries child child_count) size =
      Some (map (array_row (is_LIST (GetType child)) child_varchar)
              (firstn size list_entries)))
  /\ (forall skip_quoting child_varchar e,
        le_length e = 0 -> list_row skip_quoting child_varchar e = Some "{}")
  /\ (VectorOperations_Cast INTEGER
        [Some (int_val 1); None; Some (int_val 3)] 3 =
      Some [Some "1"; None; Some "3"] ->
      CastToPostgresVarchar VectorOperations_Cast
        (ListVector [Some (mk_list_entry 0 3)]
           (ScalarVector INTEGER [Some (int_val 1); None; Some (int_val 3)]) 3)
        1 =
      Some [Some "{1,NULL,3}"])
  /\ (VectorOperations_Cast VARCHAR [Some (string_val "a,b"); None] 2 =
      Some [Some "a,b"; None] ->
      CastToPostgresVarchar VectorOperations_Cast
        (ListVector [Some (mk_list_entry 0 2)]
           (ScalarVector VARCHAR [Some (string_val "a,b"); None]) 2)
        1 =
      Some [Some ("{" ++ String dquote "a,b" ++ String dquote ",NULL}")]).
Proof.
  split; [exact CastListToPostgresArray_rows|].
  split; [|split].
  - intros skip_quoting child_varchar e He. unfold list_row. now rewrite He.
  - intros H. cbn [CastToPostgresVarchar]. unfold CastListToPostgresArray.
    cbn [CastToPostgresVarchar]. rewrite H. reflexivity.
  - intros H. cbn [CastToPostgresVarchar]. unfold CastListToPostgresArray.
    cbn [CastToPostgresVarchar]. rewrite H. reflexivity.
Qed.

(** The engine's cast returns one text row per input row. *)
Hypothesis Cast_row_count :
  forall id data size out,
    VectorOperations_Cast id data size = Some out -> List.length out = size.

(** So does the whole caster. *)
Lemma CastToPostgresVarchar_row_count (input : Vector) (size : nat)
  (out : VarcharVector) :
  CastToPostgresVarchar VectorOperations_Cast input size = Some out ->
  List.length out = size.
Proof.
  destruct input as [list_entries child list_size | validity entries | data
                    | id data]; cbn [CastToPostgresVarchar].
  - unfold CastListToPostgresArray.
    destruct (CastToPostgresVarchar VectorOperations_Cast child list_size)
      as [child_varchar|]; [|discriminate].
    cbn [bind Monad_option]. intros H.
    apply for_loopM_length in H; [exact H|].
    intros r acc acc'.
    destruct (nth_error list_entries r) as [[e|]|]; cbn -[list_row].
    + destruct (list_row _ _ _); cbn; [|discriminate].
      intros [= <-]. unfold AddString. rewrite length_app. cbn. lia.
    + intros [= <-]. unfold SetNull. rewrite length_app. cbn. lia.
    + discriminate.
  - unfold CastStructToPostgres.
    destruct (cast_each _ entries) as [cvs|]; [|discriminate].
    cbn [bind Monad_option]. intros H.
    apply for_loopM_length in H; [exact H|].
    intros r acc acc'.
    destruct (nth_error validity r) as [[|]|]; cbn -[struct_row].
    + destruct (struct_row _ _); cbn; [|discriminate].
      intros [= <-]. unfold AddString. rewrite length_app. cbn. lia.
    + intros [= <-]. unfold SetNull. rewrite length_app. cbn. lia.
    + discriminate.
  - unfold CastBlobToPostgres. intros H.
    apply for_loopM_length in H; [exact H|].
    intros r acc acc'. destruct (nth_error data r) as [[blob|]|]; cbn.
    + intros [= <-]. unfold AddString. rewrite length_app. cbn. lia.
    + intros [= <-]. unfold SetNull. rewrite length_app. cbn. lia.
    + discriminate.
  - apply Cast_row_count.
Qed.

(** Every struct row below [size] has all its fields. *)
Lemma fields_at_cast (entries : list Vector) (size : nat)
  (child_varchar_vectors : list VarcharVector) (r : nat) :
  cast_each
    (fun child => CastToPostgresVarchar VectorOperations_Cast child size)
    entries = Some child_varchar_vectors ->
  r < size ->
  exists fields, fields_at child_varchar_vectors r = Some fields.
Proof.
  intros Hcast Hr. apply cast_each_total. intros cv Hcv.
  destruct (cast_each_In _ _ _ _ Hcast Hcv) as [child [_ Hchild]].
  apply CastToPostgresVarchar_row_count in Hchild.
  intros Hnone. apply nth_error_None in Hnone. lia.
Qed.

Lemma CastStructToPostgres_rows (validity : list bool) (entries : list Vector)
  (size : nat) (child_varchar_vectors : list VarcharVector) :
  cast_each
    (fun child => CastToPostgresVarchar VectorOperations_Cast child size)
    entries = Some child_varchar_vectors ->
  size <= List.length validity ->
  exists out,
    CastToPostgresVarchar VectorOperations_Cast
      (StructVector validity entries) size = Some out
    /\ List.length out = size
    /\ forall r valid,
         r < size -> nth_error validity r = Some valid ->
         exists fields,
           fields_at child_varchar_vectors r = Some fields
           /\ nth_error out r =
              Some (if valid then Some (composite_literal fields) else None).
Proof.
  intros Hcast Hsize.
  set (row := fun r =>
         match nth_error validity r, fields_at child_varchar_vectors r with
         | Some true, Some fields => Some (composite_literal fields)
         | _, _ => None
         end).
  exists (map row (seq 0 size)).
  split; [|split].
  - cbn [CastToPostgresVarchar]. unfold CastStructToPostgres.
    rewrite Hcast. cbn [bind Monad_option].
    rewrite (for_loopM_rows _ row); [reflexivity|].
    intros r acc Hr.
    destruct (nth_error_lt validity r) as [valid Hvalid]; [lia|].
    destruct (fields_at_cast _ _ _ r Hcast) as [fields Hfields]; [lia|].
    unfold row. rewrite Hvalid, Hfields.
    destruct valid; cbn -[struct_row]; [|reflexivity].
    now rewrite (struct_row_spec _ _ _ Hfields).
  - now rewrite length_map, length_seq.
  - intros r valid Hr Hvalid.
    destruct (fields_at_cast _ _ _ r Hcast Hr) as [fields Hfields].
    exists fields. split; [assumption|].
    rewrite nth_error_map, nth_error_seq.
    destruct (Nat.ltb_spec r size) as [_|Hge]; [|lia].
    cbn. unfold row. rewrite Hvalid, Hfields. now destruct valid.
Qed.

(** C2.  [CastStructToPostgres] keeps a null row null and turns any other
    row into an opening parenthesis, the fields joined by commas, and a
    closing parenthesis; a null field is an empty segment and every other
    field is passed through [QuoteAndEscapeIfNeeded].  The struct with
    x = 1 and y = NULL gives (1,). *)
Theorem CastStructToPostgres_spec :
  (forall (validity : list bool) (entries : list Vector) (size : nat)
          (child_varchar_vectors : list VarcharVector),
      cast_each
        (fun child => CastToPostgresVarchar VectorOperations_Cast child size)
        entries = Some child_varchar_vectors ->
      size <= List.length validity ->
      exists out,
        CastToPostgresVarchar VectorOperations_Cast
          (StructVector validity entries) size = Some out
        /\ List.length out = size
        /\ forall r valid,
             r < size -> nth_error validity r = Some valid ->
             exists fields,
               fields_at child_varchar_vectors r = Some fields
               /\ nth_error out r =
                  Some (if valid then Some (composite_literal fields)
                        else None))
  /\ (forall fields,
        composite_literal fields =
        "(" ++ String.concat ","
                 (map (fun field => match field with
                                    | None => EmptyString
                                    | Some text =>
                                        QuoteAndEscapeIfNeeded text EmptyString
                                          (String.length text)
                                    end) fields) ++ ")")
  /\ (VectorOperations_Cast INTEGER [Some (int_val 1)] 1 = Some [Some "1"] ->
      VectorOperations_Cast INTEGER [None] 1 = Some [None] ->
      CastToPostgresVarchar VectorOperations_Cast
        (StructVector [true]
           [ScalarVector INTEGER [Some (int_val 1)];
            ScalarVector INTEGER [None]]) 1 =
      Some [Some "(1,)"]).
Proof.
  split; [exact CastStructToPostgres_rows|].
  split; [reflexivity|].
  intros Hx Hy. cbn [CastToPostgresVarchar]. unfold CastStructToPostgres.
  cbn [cast_each CastToPostgresVarchar]. rewrite Hx, Hy. reflexivity.
Qed.

(** The engine's cast answers for every row count its input has. *)
Hypothesis Cast_answers :
  forall id data size,
    size <= List.length data ->
    exists out, VectorOperations_Cast id data size = Some out.

(** X17.  The caster returns a text column, of [size] rows, for every
    vector that can be read for [size] rows: no read leaves its buffer. *)
Theorem CastToPostgresVarchar_total (input : Vector) :
  forall size,
    well_formed input size = true ->
    exists out,
      CastToPostgresVarchar VectorOperations_Cast input size = Some out
      /\ List.length out = size.
Proof.
  induction input as [list_entries child list_size IH | validity entries IH
                     | data | id data] using Vector_nested_ind;
    intros size Hwf; cbn [well_formed] in Hwf.
  - apply andb_true_iff in Hwf. destruct Hwf as [Hwf Hchild].
    apply andb_true_iff in Hwf. destruct Hwf as [Hsize Hrange].
    apply Nat.leb_le in Hsize.
    destruct (IH list_size Hchild) as [child_varchar [Hcast Hlen]].
    eexists. split.
    + apply (CastListToPostgresArray_rows list_entries child list_size size
               child_varchar Hcast Hsize).
      intros r e Hr He. rewrite Hlen.
      rewrite forallb_forall in Hrange.
      assert (Hin : In (Some e) (firstn size list_entries)).
      { apply nth_error_In with r. rewrite nth_error_firstn.
        destruct (Nat.ltb_spec r size); [assumption | lia]. }
      apply Hrange in Hin. now apply Nat.leb_le in Hin.
    + rewrite length_map, length_firstn. lia.
  - apply andb_true_iff in Hwf. destruct Hwf as [Hsize Hfields].
    apply Nat.leb_le in Hsize. rewrite forallb_forall in Hfields.
    destruct (cast_each_total
                (fun child =>
                   CastToPostgresVarchar VectorOperations_Cast child size)
                entries) as [child_varchar_vectors Hcast].
    { intros field Hfield. rewrite Forall_forall in IH.
      destruct (IH field Hfield size (Hfields field Hfield)) as [out [Hout _]].
      congruence. }
    destruct (CastStructToPostgres_rows validity entries size
                child_varchar_vectors Hcast Hsize) as [out [Hout [Hlen _]]].
    now exists out.
  - apply Nat.leb_le in Hwf. eexists. split.
    + now apply CastBlobToPostgres_rows.
    + rewrite length_map, length_firstn. lia.
  - apply Nat.leb_le in Hwf.
    destruct (Cast_answers id data size Hwf) as [out Hout].
    exists out. split; [assumption|].
    now apply (Cast_row_count id data size).
Qed.

End CasterFacts.

(** C10.  A non-null field whose text is empty is written as two double
    quotes, a null field as nothing, and no text at all is written as
    nothing; so two struct rows that differ only in that one field is the
    empty text in the first and null in the second get different literals,
    the first two characters longer. *)
Theorem struct_empty_text_is_not_null :
  NeedsQuotes EmptyString 0 = true
  /\ (forall result,
        QuoteAndEscapeIfNeeded EmptyString result 0 =
        result ++ String dquote (String dquote EmptyString))
  /\ (forall text,
        QuoteAndEscapeIfNeeded text EmptyString (String.length text)
        <> EmptyString)
  /\ (forall (vectors vectors' : list VarcharVector) (r : nat)
             (before after : list (option string)),
        fields_at vectors r = Some (before ++ Some EmptyString :: after)%list ->
        fields_at vectors' r = Some (before ++ None :: after)%list ->
        exists literal literal',
          struct_row vectors r = Some literal
          /\ struct_row vectors' r = Some literal'
          /\ String.length literal = 2 + String.length literal'
          /\ literal <> literal').
Proof.
  split; [reflexivity|].
  split.
  { intros result. exact (QuoteAndEscapeIfNeeded_appends EmptyString result). }
  split; [exact quoted_nonempty|].
  intros vectors vectors' r before after H H'.
  exists (composite_literal (before ++ Some EmptyString :: after)),
         (composite_literal (before ++ None :: after)).
  split; [now apply struct_row_spec|]. split; [now apply struct_row_spec|].
  assert (Hlen :
    String.length (composite_literal (before ++ Some EmptyString :: after)) =
    2 + String.length (composite_literal (before ++ None :: after))).
  { unfold composite_literal. rewrite !map_app. cbn [map].
    destruct (concat_middle (map composite_field before)
                (map composite_field after)) as [b [a Hmid]].
    rewrite !Hmid. cbn [composite_field].
    change (quoted EmptyString) with (String dquote (String dquote EmptyString)).
    rewrite !length_append. cbn [String.length]. lia. }
  split; [exact Hlen|].
  intros Heq. rewrite Heq in Hlen. lia.
Qed.

End CastingFacts.

(** ** Copy session driver *)

Module SessionFacts.
Import Quoting Session Literal QuotingFacts CastingFacts.

(** *** The retry loop *)

Lemma CopyData_loop_retry (buffer : string) (nbytes : Z) :
  forall (k : nat) (code : Z) (rest : list Z) (made : list PQcall),
    code <> 0%Z ->
    CopyData_loop buffer nbytes (repeat 0%Z k ++ code :: rest) made =
    (Some code, rest,
     (made ++ repeat (PQputCopyData buffer nbytes) (S k))%list).
Proof.
  induction k as [|k IH]; intros code rest made Hcode.
  - cbn. destruct (Z.eqb_spec code 0); [contradiction | reflexivity].
  - cbn [repeat app CopyData_loop Z.eqb]. rewrite IH by assumption.
    now rewrite <- app_assoc.
Qed.

Lemma CopyData_loop_zeros (buffer : string) (nbytes : Z) :
  forall (script : list Z) (made : list PQcall),
    Forall (fun code => code = 0%Z) script ->
    fst (fst (CopyData_loop buffer nbytes script made)) = None.
Proof.
  induction script as [|code script IH]; intros made Hall.
  - reflexivity.
  - inversion Hall as [|? ? Hcode Hrest]; subst. cbn. now apply IH.
Qed.

(** A script is all zeros, or it is some zeros followed by another code. *)
Lemma script_cases (script : list Z) :
  Forall (fun code => code = 0%Z) script
  \/ exists k code rest,
       code <> 0%Z /\ script = (repeat 0%Z k ++ code :: rest)%list.
Proof.
  induction script as [|code script IH].
  - left. constructor.
  - destruct (Z.eq_dec code 0) as [->|Hne].
    + destruct IH as [Hall | [k [c [rest [Hc ->]]]]].
      * left. now constructor.
      * right. exists (S k), c, rest. now split.
    + right. exists 0, code, script. now split.
Qed.

Section DriverFacts.

Variable PQerrorMessage : PGconn -> string.
Variable WriteQuoted : string -> ascii -> string.
Variable BinaryWriter_Header : PostgresCopyState -> string.
Variable BinaryWriter_Footer : PostgresCopyState -> string.
Variable TextWriter_Footer : PostgresCopyState -> string.

Lemma CopyData_run (buffer : string) (size k : nat) (code : Z)
  (rest : list Z) (execs : list (option PGresult)) (ends : list Z)
  (results : list (option PGresult)) (made : list PQcall)
  (s : PostgresCopyState) :
  code <> 0%Z ->
  let after :=
    mk_conn execs rest ends results
      (made ++ repeat (PQputCopyData buffer (to_int size)) (S k)) in
  CopyData PQerrorMessage buffer size
    (mk_world (mk_conn execs (repeat 0%Z k ++ code :: rest) ends results made) s)
  = (if (code =? -1)%Z
     then Throws (InternalException
                    ("Error during PQputCopyData: " ++ PQerrorMessage after))
     else Returns tt,
     mk_world after s).
Proof.
  intros Hcode after. unfold CopyData.
  cbn [bind Monad_M GetConn conn putCopyData_script calls].
  rewrite CopyData_loop_retry by assumption.
  cbn. destruct (code =? -1)%Z; reflexivity.
Qed.

Lemma CopyData_blocked (buffer : string) (size : nat) (w : World) :
  Forall (fun code => code = 0%Z) (putCopyData_script (conn w)) ->
  fst (CopyData PQerrorMessage buffer size w) = Blocked.
Proof.
  intros Hall. unfold CopyData. cbn [bind Monad_M GetConn].
  pose proof (CopyData_loop_zeros buffer (to_int size) _ (calls (conn w)) Hall)
    as Hloop.
  destruct (CopyData_loop buffer (to_int size) (putCopyData_script (conn w))
              (calls (conn w))) as [[[code|] script] made]; cbn in Hloop.
  - discriminate.
  - reflexivity.
Qed.

(** C7.  [CopyData] calls the transmission primitive again for as long as
    it answers zero, with the same buffer, and nothing reaches the caller
    meanwhile; the first other answer ends the call: -1 throws with the
    connection's error message, any other answer (a positive one in
    particular) returns normally.  So [CopyData] throws exactly when the
    answers are zeros followed by -1. *)
Theorem CopyData_retries_until_answer :
  (forall (buffer : string) (size k : nat) (code : Z) (rest : list Z)
          (execs : list (option PGresult)) (ends : list Z)
          (results : list (option PGresult)) (made : list PQcall)
          (s : PostgresCopyState),
      code <> 0%Z ->
      let after :=
        mk_conn execs rest ends results
          (made ++ repeat (PQputCopyData buffer (to_int size)) (S k)) in
      CopyData PQerrorMessage buffer size
        (mk_world
           (mk_conn execs (repeat 0%Z k ++ code :: rest) ends results made) s)
      = (if (code =? -1)%Z
         then Throws (InternalException
                        ("Error during PQputCopyData: "
                           ++ PQerrorMessage after))
         else Returns tt,
         mk_world after s))
  /\ (forall buffer size w,
        Forall (fun code => code = 0%Z) (putCopyData_script (conn w)) ->
        fst (CopyData PQerrorMessage buffer size w) = Blocked)
  /\ (forall buffer size w,
        (exists e, fst (CopyData PQerrorMessage buffer size w) = Throws e)
        <-> (exists k rest,
               putCopyData_script (conn w) =
               (repeat 0%Z k ++ (-1)%Z :: rest)%list))
  /\ (forall buffer size w k code rest,
        putCopyData_script (conn w) = (repeat 0%Z k ++ code :: rest)%list ->
        (0 < code)%Z ->
        fst (CopyData PQerrorMessage buffer size w) = Returns tt).
Proof.
  split; [exact CopyData_run|]. split; [exact CopyData_blocked|]. split.
  - intros buffer size [[execs script ends results made] s].
    cbn [conn putCopyData_script].
    split.
    + intros [e He].
      destruct (script_cases script) as [Hall | [k [code [rest [Hcode ->]]]]].
      * rewrite CopyData_blocked in He by exact Hall. discriminate.
      * rewrite CopyData_run in He by assumption. cbn [fst] in He.
        destruct (Z.eqb_spec code (-1)) as [->|Hne]; [|discriminate].
        now exists k, rest.
    + intros [k [rest ->]]. rewrite CopyData_run by discriminate.
      cbn [fst Z.eqb Pos.eqb]. eexists. reflexivity.
  - intros buffer size [[execs script ends results made] s] k code rest.
    cbn [conn putCopyData_script]. intros -> Hpos.
    rewrite CopyData_run by lia. cbn [fst].
    destruct (Z.eqb_spec code (-1)); [lia | reflexivity].
Qed.

(** *** Session setup *)

Lemma contains_null_byte_spec (s : string) :
  contains_null_byte s = true <-> has_null_byte s.
Proof.
  unfold has_null_byte. induction s as [|c s IH]; cbn [contains_null_byte].
  - split; [discriminate | intros [i H]; discriminate].
  - destruct (Ascii.eqb_spec c zero) as [->|Hne].
    + split; [|reflexivity]. intros _. now exists 0.
    + rewrite IH. split.
      * intros [i H]. now exists (S i).
      * intros [[|i] H]; cbn in H; [congruence | now exists i].
Qed.

Lemma c_str_no_null_byte (s : string) : ~ has_null_byte s -> c_str s = s.
Proof.
  intros H. rewrite <- contains_null_byte_spec in H.
  induction s as [|c s IH]; [reflexivity|].
  cbn in *. destruct (Ascii.eqb c zero); [congruence|]. now rewrite IH.
Qed.

Lemma Initialize_run (context : ClientContext) (w : World) :
  Initialize context w =
  match TryGetCurrentSetting context "pg_null_byte_replacement" with
  | Some (StringValue replacement_str) =>
      if contains_null_byte replacement_str then
        (Throws (InternalException
                   "NULL byte replacement string cannot contain NULL values"),
         w)
      else
        (Returns tt,
         mk_world (conn w) (mk_copy_state (format (state w)) true replacement_str))
  | _ => (Returns tt, w)
  end.
Proof.
  unfold Initialize.
  destruct (TryGetCurrentSetting context "pg_null_byte_replacement")
    as [[|replacement_str]|]; try reflexivity.
  destruct (contains_null_byte replacement_str); reflexivity.
Qed.

(** *** The command text *)

Lemma column_list_loop (column_names : list string) (query : string) :
  for_loop
    (fun c query =>
       let query := if (0 <? c)%nat then query ++ ", " else query in
       query ++ WriteQuoted (nth c column_names EmptyString) dquote)
    0 (List.length column_names) query =
  query ++ String.concat ", "
             (map (fun name => WriteQuoted name dquote) column_names).
Proof.
  rewrite <- (length_map (fun name => WriteQuoted name dquote) column_names).
  apply join_for_loop. intros i x acc Hi.
  apply nth_error_map_Some in Hi. destruct Hi as [name [Hname <-]].
  cbv zeta. now rewrite (nth_error_nth _ _ EmptyString Hname).
Qed.

Lemma BeginCopyTo_run (context : ClientContext) (f : PostgresCopyFormat)
  (schema_name table_name : string) (column_names : list string)
  (reply : option PGresult) (execs : list (option PGresult))
  (datas ends : list Z) (results : list (option PGresult))
  (made : list PQcall) (s0 : PostgresCopyState) :
  f <> OTHER_FORMAT ->
  (forall replacement_str,
     TryGetCurrentSetting context "pg_null_byte_replacement" =
       Some (StringValue replacement_str) ->
     ~ has_null_byte replacement_str) ->
  let text :=
    copy_command (fun name => WriteQuoted name dquote) f schema_name table_name
      column_names in
  let w := mk_world (mk_conn (reply :: execs) datas ends results made) s0 in
  let s1 := state (snd (Initialize context w)) in
  let s2 :=
    mk_copy_state f (has_null_byte_replacement s1) (null_byte_replacement s1) in
  let w2 :=
    mk_world (mk_conn execs datas ends results (made ++ [PQexec (c_str text)]))
      s2 in
  BeginCopyTo PQerrorMessage WriteQuoted BinaryWriter_Header context f
    schema_name table_name column_names w =
  if accepts_copy_data reply then
    match f with
    | BINARY => CopyData_writer PQerrorMessage (BinaryWriter_Header s2) w2
    | _ => (Returns tt, w2)
    end
  else
    (Throws (runtime_error
               ("Failed to prepare COPY " ++ String dquote text
                  ++ String dquote ": " ++ PQresultErrorMessage reply)),
     w2).
Proof.
  intros Hf Hsetting text w s1 s2 w2.
  assert (Hinit : Initialize context w = (Returns tt, mk_world (conn w) s1)).
  { subst s1. rewrite Initialize_run.
    destruct (TryGetCurrentSetting context "pg_null_byte_replacement")
      as [[|replacement_str]|] eqn:E; try reflexivity.
    destruct (contains_null_byte replacement_str) eqn:Hnul; [|reflexivity].
    apply contains_null_byte_spec in Hnul. now apply Hsetting in Hnul. }
  unfold BeginCopyTo. cbv zeta.
  match goal with
  | |- context [?q ++ "FROM STDIN "] => set (Q := q ++ "FROM STDIN ")
  end.
  assert (HQ : (Q ++ format_clause f) ++ ")" = text).
  { subst Q text. rewrite column_list_loop. unfold copy_command.
    destruct (is_empty schema_name); destruct column_names as [|name names];
      cbn [negb Nat.eqb List.length]; now rewrite !append_assoc. }
  cbn [bind Monad_M]. rewrite Hinit.
  cbn [get_state put_state state conn format].
  destruct f; [| |contradiction]; cbn [ret Monad_M].
  - change ((Q ++ "BINARY") ++ ")") with ((Q ++ format_clause BINARY) ++ ")").
    rewrite HQ. unfold PQExecute.
    cbn [bind Monad_M GetConn put_conn ret conn state exec_script
         putCopyData_script putCopyEnd_script getResult_script calls w].
    destruct reply as [r|]; [|reflexivity].
    cbn [accepts_copy_data]. destruct (ExecStatusType_eqb _ _); reflexivity.
  - change ((Q ++ ("TEXT (NULL '" ++ String backspace "')")) ++ ")")
      with ((Q ++ format_clause TEXT) ++ ")").
    rewrite HQ. unfold PQExecute.
    cbn [bind Monad_M GetConn put_conn ret conn state exec_script
         putCopyData_script putCopyEnd_script getResult_script calls w].
    destruct reply as [r|]; [|reflexivity].
    cbn [accepts_copy_data]. destruct (ExecStatusType_eqb _ _); reflexivity.
Qed.

(** C8.  [Initialize] throws exactly when the setting
    pg_null_byte_replacement is present, is not NULL, and its string holds
    a NUL byte; it never touches the connection and never waits, and
    [BeginCopyTo] throws that error with the connection as it found it, no
    call made.  With a string free of NUL bytes the string is recorded in
    the session state. *)
Theorem Initialize_rejects_null_byte :
  (forall context w,
     (exists e, fst (Initialize context w) = Throws e)
     <-> (exists replacement_str,
            TryGetCurrentSetting context "pg_null_byte_replacement" =
              Some (StringValue replacement_str)
            /\ has_null_byte replacement_str))
  /\ (forall context w,
        conn (snd (Initialize context w)) = conn w
        /\ fst (Initialize context w) <> Blocked)
  /\ (forall context replacement_str w,
        TryGetCurrentSetting context "pg_null_byte_replacement" =
          Some (StringValue replacement_str) ->
        ~ has_null_byte replacement_str ->
        Initialize context w =
        (Returns tt,
         mk_world (conn w)
           (mk_copy_state (format (state w)) true replacement_str)))
  /\ (forall context f schema_name table_name column_names replacement_str w,
        TryGetCurrentSetting context "pg_null_byte_replacement" =
          Some (StringValue replacement_str) ->
        has_null_byte replacement_str ->
        BeginCopyTo PQerrorMessage WriteQuoted BinaryWriter_Header context f
          schema_name table_name column_names w =
        (Throws (InternalException
                   "NULL byte replacement string cannot contain NULL values"),
         w)).
Proof.
  split; [|split; [|split]].
  - intros context w. rewrite Initialize_run.
    destruct (TryGetCurrentSetting context "pg_null_byte_replacement")
      as [[|replacement_str]|] eqn:E.
    + split; [intros [e H]; discriminate | intros [r [H _]]; discriminate].
    + destruct (contains_null_byte replacement_str) eqn:Hnul.
      * split; [|intros _; eexists; reflexivity].
        intros _. exists replacement_str. split; [reflexivity|].
        now apply contains_null_byte_spec.
      * split; [intros [e H]; discriminate|].
        intros [r [[= <-] Hr]]. apply contains_null_byte_spec in Hr.
        congruence.
    + split; [intros [e H]; discriminate | intros [r [H _]]; discriminate].
  - intros context w. rewrite Initialize_run.
    destruct (TryGetCurrentSetting context "pg_null_byte_replacement")
      as [[|replacement_str]|]; cbn; try (split; [reflexivity|discriminate]).
    destruct (contains_null_byte replacement_str); cbn;
      (split; [reflexivity|discriminate]).
  - intros context replacement_str w Hset Hnul. rewrite Initialize_run, Hset.
    destruct (contains_null_byte replacement_str) eqn:E; [|reflexivity].
    apply contains_null_byte_spec in E. contradiction.
  - intros context f schema_name table_name column_names replacement_str w
      Hset Hnul.
    unfold BeginCopyTo. cbv zeta. cbn [bind Monad_M].
    rewrite Initialize_run, Hset.
    apply contains_null_byte_spec in Hnul. now rewrite Hnul.
Qed.

(** C9.  Once the session is set up, [BeginCopyTo] builds the text
    COPY, the quoted schema and a dot when the schema name is not empty,
    the quoted table, the parenthesised quoted column names separated by
    comma and space when there are any, FROM STDIN, then BINARY or
    TEXT (NULL 'backspace'), then a closing parenthesis.  That text is
    what it submits (as a C string) and what it reports when the server
    does not accept copy data. *)
Theorem BeginCopyTo_command_text :
  forall (context : ClientContext) (f : PostgresCopyFormat)
         (schema_name table_name : string) (column_names : list string)
         (reply : option PGresult) (execs : list (option PGresult))
         (datas ends : list Z) (results : list (option PGresult))
         (made : list PQcall) (s0 : PostgresCopyState),
    f <> OTHER_FORMAT ->
    (forall replacement_str,
        TryGetCurrentSetting context "pg_null_byte_replacement" =
          Some (StringValue replacement_str) ->
        ~ has_null_byte replacement_str) ->
    let quote_identifier := fun name => WriteQuoted name dquote in
    let text :=
      "COPY "
        ++ (if is_empty schema_name then EmptyString
            else quote_identifier schema_name ++ ".")
        ++ quote_identifier table_name ++ " "
        ++ match column_names with
           | [] => EmptyString
           | _ :: _ =>
               "(" ++ String.concat ", " (map quote_identifier column_names)
                 ++ ") "
           end
        ++ "FROM STDIN "
        ++ match f with
           | BINARY => "BINARY"
           | TEXT => "TEXT (NULL '" ++ String backspace "')"
           | OTHER_FORMAT => EmptyString
           end
        ++ ")" in
    let w := mk_world (mk_conn (reply :: execs) datas ends results made) s0 in
    let s1 := state (snd (Initialize context w)) in
    let s2 :=
      mk_copy_state f (has_null_byte_replacement s1)
        (null_byte_replacement s1) in
    let w2 :=
      mk_world
        (mk_conn execs datas ends results (made ++ [PQexec (c_str text)])) s2 in
    BeginCopyTo PQerrorMessage WriteQuoted BinaryWriter_Header context f
      schema_name table_name column_names w =
    (if accepts_copy_data reply then
       match f with
       | BINARY => CopyData_writer PQerrorMessage (BinaryWriter_Header s2) w2
       | _ => (Returns tt, w2)
       end
     else
       (Throws (runtime_error
                  ("Failed to prepare COPY " ++ String dquote text
                     ++ String dquote ": " ++ PQresultErrorMessage reply)),
        w2))
    /\ (~ has_null_byte text -> c_str text = text).
Proof.
  intros context f schema_name table_name column_names reply execs datas ends
    results made s0 Hf Hsetting quote_identifier text w s1 s2 w2.
  split; [|apply c_str_no_null_byte].
  exact (BeginCopyTo_run context f schema_name table_name column_names reply
           execs datas ends results made s0 Hf Hsetting).
Qed.

(** *** Finishing *)

Lemma FinishCopyTo_run (k : nat) (code : Z) (rest : list Z)
  (execs : list (option PGresult)) (end_code : Z) (ends : list Z)
  (results : list (option PGresult)) (made : list PQcall)
  (s : PostgresCopyState) :
  format s <> OTHER_FORMAT -> code <> 0%Z -> code <> (-1)%Z ->
  let footer := footer_of BinaryWriter_Footer TextWriter_Footer s in
  let sent :=
    ((made
        ++ repeat (PQputCopyData footer (to_int (String.length footer))) (S k))
       ++ [PQputCopyEnd])%list in
  FinishCopyTo PQerrorMessage BinaryWriter_Footer TextWriter_Footer
    (mk_world
       (mk_conn execs (repeat 0%Z k ++ code :: rest) (end_code :: ends)
          results made) s) =
  if (end_code =? 1)%Z then
    match results with
    | [] => (Blocked, mk_world (mk_conn execs rest ends results sent) s)
    | result :: results' =>
        (if command_ok result then Returns tt
         else Throws (runtime_error
                        ("Failed to copy data: " ++ PQresultErrorMessage result)),
         mk_world (mk_conn execs rest ends results' (sent ++ [PQgetResult])) s)
    end
  else
    (Throws (InternalException
               ("Error during PQputCopyEnd: "
                  ++ PQerrorMessage (mk_conn execs rest ends results sent))),
     mk_world (mk_conn execs rest ends results sent) s).
Proof.
  intros Hformat Hcode Hhard footer sent.
  assert (Hsend :
    forall stream, stream = footer ->
      CopyData_writer PQerrorMessage stream
        (mk_world
           (mk_conn execs (repeat 0%Z k ++ code :: rest) (end_code :: ends)
              results made) s) =
      (Returns tt,
       mk_world
         (mk_conn execs rest (end_code :: ends) results
            (made ++ repeat (PQputCopyData footer
                               (to_int (String.length footer))) (S k))) s)).
  { intros stream ->. unfold CopyData_writer. rewrite CopyData_run by assumption.
    destruct (Z.eqb_spec code (-1)); [contradiction | reflexivity]. }
  unfold FinishCopyTo. cbn [bind Monad_M get_state state].
  assert (Hfooter :
    match format s with
    | BINARY => CopyData_writer PQerrorMessage (BinaryWriter_Footer s)
    | TEXT => CopyData_writer PQerrorMessage (TextWriter_Footer s)
    | OTHER_FORMAT => ret tt
    end = CopyData_writer PQerrorMessage footer).
  { subst footer. unfold footer_of.
    destruct (format s); [reflexivity | reflexivity | contradiction]. }
  rewrite Hfooter, (Hsend footer eq_refl).
  unfold putCopyEnd, getResult.
  cbn [bind ret Monad_M GetConn put_conn conn state exec_script
       putCopyData_script putCopyEnd_script getResult_script calls].
  fold sent.
  destruct (end_code =? 1)%Z; cbn [negb]; [|reflexivity].
  cbn [bind ret Monad_M GetConn put_conn conn state exec_script
       putCopyData_script putCopyEnd_script getResult_script calls].
  destruct results as [|result results']; [reflexivity|].
  cbn [bind ret Monad_M GetConn put_conn conn state exec_script
       putCopyData_script putCopyEnd_script getResult_script calls].
  destruct result as [r|]; [|reflexivity].
  cbn [command_ok]. destruct (ExecStatusType_eqb _ _); reflexivity.
Qed.

(** C6.  In a binary or text session whose footer transmission goes
    through, [FinishCopyTo] sends the footer of the session's format,
    then signals the end of the copy data, then fetches the final result,
    in this order.  It throws with the connection's error message when the
    end signal does not answer 1, without fetching a result; and when the
    end signal succeeds it throws with the result's error message unless
    the fetched result reports command success. *)
Theorem FinishCopyTo_two_step_handshake :
  forall (k : nat) (code : Z) (rest : list Z) (execs : list (option PGresult))
         (end_code : Z) (ends : list Z) (result : option PGresult)
         (results : list (option PGresult)) (made : list PQcall)
         (s : PostgresCopyState),
    format s <> OTHER_FORMAT -> code <> 0%Z -> code <> (-1)%Z ->
    let footer :=
      match format s with
      | BINARY => BinaryWriter_Footer s
      | TEXT => TextWriter_Footer s
      | OTHER_FORMAT => EmptyString
      end in
    let sent :=
      ((made
          ++ repeat (PQputCopyData footer (to_int (String.length footer)))
               (S k))
         ++ [PQputCopyEnd])%list in
    let w :=
      mk_world
        (mk_conn execs (repeat 0%Z k ++ code :: rest) (end_code :: ends)
           (result :: results) made) s in
    let finish :=
      FinishCopyTo PQerrorMessage BinaryWriter_Footer TextWriter_Footer w in
    (end_code <> 1%Z ->
       finish =
       (Throws (InternalException
                  ("Error during PQputCopyEnd: "
                     ++ PQerrorMessage
                          (mk_conn execs rest ends (result :: results) sent))),
        mk_world (mk_conn execs rest ends (result :: results) sent) s))
    /\ (end_code = 1%Z ->
          calls (conn (snd finish)) = (sent ++ [PQgetResult])%list
          /\ getResult_script (conn (snd finish)) = results
          /\ (command_ok result = true -> fst finish = Returns tt)
          /\ (command_ok result = false ->
                fst finish =
                Throws (runtime_error
                          ("Failed to copy data: "
                             ++ PQresultErrorMessage result)))).
Proof.
  intros k code rest execs end_code ends result results made s Hformat Hcode
    Hhard footer sent w finish.
  pose proof (FinishCopyTo_run k code rest execs end_code ends
                (result :: results) made s Hformat Hcode Hhard) as Hrun.
  cbv zeta in Hrun. fold footer in Hrun.
  change (footer_of BinaryWriter_Footer TextWriter_Footer s) with footer in Hrun.
  fold sent in Hrun. fold w in Hrun. fold finish in Hrun.
  split.
  - intros Hend. rewrite Hrun.
    destruct (Z.eqb_spec end_code 1); [contradiction | reflexivity].
  - intros ->. rewrite Hrun. cbn [Z.eqb Pos.eqb snd fst conn calls getResult_script].
    split; [reflexivity|]. split; [reflexivity|].
    split; intros ->; reflexivity.
Qed.

End DriverFacts.

End SessionFacts.

(** ** The properties on concrete inputs *)

Module Runs.
Import Quoting Casting Session Literal.
Import QuotingFacts CastingFacts SessionFacts.

Lemma Sample_Cast_row_count :
  forall id data size out,
    Sample.Cast id data size = Some out -> List.length out = size.
Proof.
  intros id data size out H. unfold Sample.Cast in H.
  apply for_loopM_length in H; [exact H|].
  intros r acc acc'. destruct (nth_error data r) as [row|]; cbn.
  - intros [= <-]. rewrite length_app. cbn. lia.
  - discriminate.
Qed.

Lemma NeedsQuotes_iff_witness :
  NeedsQuotes "a,b" (String.length "a,b") = true.
Proof.
  apply (proj1 (NeedsQuotes_iff "a,b")).
  right; right; right. exists ","%char. split.
  - simpl. tauto.
  - exists 1. reflexivity.
Defined.

Lemma CastBlobToPostgres_spec_witness :
  2 <= List.length
         [Some (String (ascii_of_nat 10) (String (ascii_of_nat 255) EmptyString));
          None; Some "A"]
  /\ CastBlobToPostgres
       [Some (String (ascii_of_nat 10) (String (ascii_of_nat 255) EmptyString));
        None; Some "A"] 2 =
     Some [Some "\x0AFF"; None].
Proof.
  split; [simpl; lia|].
  rewrite (proj1 CastBlobToPostgres_spec); [reflexivity | simpl; lia].
Defined.

Lemma CastListToPostgresArray_spec_witness :
  Sample.Cast INTEGER [Some (int_val 1); None; Some (int_val 3)] 3 =
    Some [Some "1"; None; Some "3"]
  /\ CastToPostgresVarchar Sample.Cast
       (ListVector [Some (mk_list_entry 0 3); None; Some (mk_list_entry 3 0)]
          (ScalarVector INTEGER [Some (int_val 1); None; Some (int_val 3)]) 3)
       3 =
     Some [Some "{1,NULL,3}"; None; Some "{}"].
Proof.
  split; [reflexivity|].
  destruct (CastListToPostgresArray_spec Sample.Cast) as [Hrows _].
  rewrite (Hrows _ _ _ _ [Some "1"; None; Some "3"]).
  - reflexivity.
  - reflexivity.
  - simpl; lia.
  - intros r e Hr He.
    destruct r as [|[|[|r]]]; try lia; simpl in He; try discriminate;
      injection He as <-; simpl; lia.
Defined.

Lemma CastStructToPostgres_spec_witness :
  exists out,
    CastToPostgresVarchar Sample.Cast
      (StructVector [true; false]
         [ScalarVector INTEGER [Some (int_val 1); Some (int_val 2)];
          ScalarVector VARCHAR [None; Some (string_val "x")]]) 2 = Some out
    /\ nth_error out 0 = Some (Some "(1,)")
    /\ nth_error out 1 = Some None.
Proof.
  destruct (CastStructToPostgres_spec Sample.Cast Sample_Cast_row_count)
    as [Hrows _].
  destruct (Hrows [true; false]
              [ScalarVector INTEGER [Some (int_val 1); Some (int_val 2)];
               ScalarVector VARCHAR [None; Some (string_val "x")]] 2
              [[Some "1"; Some "2"]; [None; Some "x"]])
    as [out [Hout [_ Hrow]]].
  - reflexivity.
  - simpl; lia.
  - exists out. split; [exact Hout|]. split.
    + destruct (Hrow 0 true) as [fields [Hfields H0]];
        [lia | reflexivity |].
      injection Hfields as <-. exact H0.
    + destruct (Hrow 1 false) as [fields [_ H1]];
        [lia | reflexivity |].
      exact H1.
Defined.

Lemma struct_empty_text_is_not_null_witness :
  exists literal literal',
    struct_row [[Some "7"]; [Some EmptyString]] 0 = Some literal
    /\ struct_row [[Some "7"]; [None]] 0 = Some literal'
    /\ literal <> literal'.
Proof.
  destruct struct_empty_text_is_not_null as [_ [_ [_ H]]].
  destruct (H [[Some "7"]; [Some EmptyString]] [[Some "7"]; [None]] 0
              [Some "7"] [] eq_refl eq_refl)
    as [literal [literal' [H1 [H2 [_ Hne]]]]].
  exists literal, literal'. now repeat split.
Defined.

(** Two sends that find no buffer space, then a hard failure. *)
Lemma CopyData_retries_until_answer_witness :
  CopyData Sample.PQerrorMessage "row" 3
    (mk_world (mk_conn [] [0; 0; -1; 1]%Z [] [] []) Sample.idle_state) =
  (Throws (InternalException
             "Error during PQputCopyData: connection lost after 3 calls"),
   mk_world
     (mk_conn [] [1%Z] [] []
        [PQputCopyData "row" 3; PQputCopyData "row" 3; PQputCopyData "row" 3])
     Sample.idle_state).
Proof.
  refine (proj1 (CopyData_retries_until_answer Sample.PQerrorMessage)
            "row" 3 2 (-1)%Z [1%Z] [] [] [] [] Sample.idle_state _).
  discriminate.
Defined.

Lemma Initialize_rejects_null_byte_witness :
  Initialize (Sample.setting (StringValue "?"))
    (mk_world (mk_conn [] [] [] [] []) Sample.idle_state) =
    (Returns tt,
     mk_world (mk_conn [] [] [] [] []) (mk_copy_state OTHER_FORMAT true "?"))
  /\ BeginCopyTo Sample.PQerrorMessage Sample.WriteQuoted
       Sample.BinaryWriter_Header
       (Sample.setting (StringValue (String "a" (String zero EmptyString))))
       TEXT "s" "t" ["a"]
       (mk_world (mk_conn [Sample.ok_result PGRES_COPY_IN] [] [] [] [])
          Sample.idle_state) =
     (Throws (InternalException
                "NULL byte replacement string cannot contain NULL values"),
      mk_world (mk_conn [Sample.ok_result PGRES_COPY_IN] [] [] [] [])
        Sample.idle_state).
Proof.
  destruct (Initialize_rejects_null_byte Sample.PQerrorMessage
              Sample.WriteQuoted Sample.BinaryWriter_Header)
    as [_ [_ [Hok Hreject]]].
  split.
  - apply (Hok (Sample.setting (StringValue "?")) "?").
    + reflexivity.
    + intros [i Hi]. destruct i as [|[|i]]; discriminate.
  - apply (Hreject _ TEXT "s" "t" ["a"] (String "a" (String zero EmptyString))).
    + reflexivity.
    + exists 1. reflexivity.
Defined.

Lemma BeginCopyTo_command_text_witness :
  BeginCopyTo Sample.PQerrorMessage Sample.WriteQuoted
    Sample.BinaryWriter_Header Sample.no_settings TEXT "s" "t" ["a"; "b"]
    (mk_world (mk_conn [Sample.ok_result PGRES_COPY_IN] [] [] [] [])
       Sample.idle_state) =
  (Returns tt,
   mk_world
     (mk_conn [] [] [] []
        [PQexec
           ("COPY " ++ String dquote "s" ++ String dquote "."
              ++ String dquote "t" ++ String dquote " ("
              ++ String dquote "a" ++ String dquote ", "
              ++ String dquote "b" ++ String dquote ") FROM STDIN TEXT (NULL '"
              ++ String backspace "'))")])
     (mk_copy_state TEXT false EmptyString)).
Proof.
  refine (proj1 (BeginCopyTo_command_text Sample.PQerrorMessage
                   Sample.WriteQuoted Sample.BinaryWriter_Header
                   Sample.no_settings TEXT "s" "t" ["a"; "b"]
                   (Sample.ok_result PGRES_COPY_IN) [] [] [] [] []
                   Sample.idle_state _ _)).
  - discriminate.
  - intros replacement_str H. discriminate.
Defined.

(** The footer goes out at the second attempt, the end signal is
    accepted, and the final result reports an error. *)
Lemma FinishCopyTo_two_step_handshake_witness :
  let finish :=
    FinishCopyTo Sample.PQerrorMessage Sample.BinaryWriter_Footer
      Sample.TextWriter_Footer
      (mk_world
         (mk_conn [] [0; 1]%Z [1%Z]
            [Some (mk_result PGRES_FATAL_ERROR "ERROR:  duplicate key")] [])
         (mk_copy_state TEXT false EmptyString)) in
  fst finish =
    Throws (runtime_error "Failed to copy data: ERROR:  duplicate key")
  /\ calls (conn (snd finish)) =
     [PQputCopyData ("\." ++ String Sample.newline EmptyString) 3;
      PQputCopyData ("\." ++ String Sample.newline EmptyString) 3;
      PQputCopyEnd; PQgetResult].
Proof.
  destruct (FinishCopyTo_two_step_handshake Sample.PQerrorMessage
              Sample.BinaryWriter_Footer Sample.TextWriter_Footer
              1 1%Z [] [] 1%Z []
              (Some (mk_result PGRES_FATAL_ERROR "ERROR:  duplicate key")) []
              [] (mk_copy_state TEXT false EmptyString))
    as [_ Hfetch]; try discriminate.
  destruct (Hfetch eq_refl) as [Hcalls [_ [_ Hfail]]].
  split; [exact (Hfail eq_refl) | exact Hcalls].
Defined.

End Runs.

(** ** What the literals keep and what they lose *)

Module LiteralFacts.
Import Quoting Casting Literal Reading.
Import QuotingFacts CastingFacts.

(** *** Tokens and the top-level split *)

Lemma passes_plain (t : string) :
  NeedsQuotes_loop t 0 (String.length t) = false -> passes t.
Proof.
  induction t as [|a t IH]; intros Hloop rest cur.
  - cbn. now rewrite append_nil_r.
  - cbn [String.length NeedsQuotes_loop] in Hloop.
    rewrite NeedsQuotes_loop_cons in Hloop.
    change (at_ (String a t) 0) with a in Hloop.
    destruct (is_list_or_struct_char a) eqn:Ha; [discriminate|].
    unfold is_list_or_struct_char in Ha. cbn [existsb] in Ha.
    apply orb_false_iff in Ha. destruct Ha as [Hq Ha].
    repeat (apply orb_false_iff in Ha; destruct Ha as [? Ha]).
    cbn [append split_segments].
    replace (Ascii.eqb a ","%char) with false by (symmetry; assumption).
    rewrite Hq. rewrite (IH Hloop). unfold push_back.
    now rewrite append_assoc.
Qed.

Lemma split_quoted_body (v : string) :
  forall rest cur,
    split_segments (escaped v ++ String dquote rest) Quoted cur =
    split_segments rest Plain (cur ++ escaped v ++ String dquote EmptyString).
Proof.
  induction v as [|ch v IH]; intros rest cur.
  - reflexivity.
  - cbn [escaped]. rewrite is_quote_or_backslash_eqb.
    destruct (Ascii.eqb ch "\"%char) eqn:Hbs.
    + rewrite orb_true_r. apply Ascii.eqb_eq in Hbs. subst ch.
      cbn [append split_segments Ascii.eqb Bool.eqb]. rewrite IH.
      unfold push_back. now rewrite !append_assoc.
    + rewrite orb_false_r. destruct (Ascii.eqb ch dquote) eqn:Hq.
      * apply Ascii.eqb_eq in Hq. subst ch.
        cbn [append split_segments]. cbn [Ascii.eqb Bool.eqb dquote].
        rewrite IH. unfold push_back. now rewrite !append_assoc.
      * cbn [append split_segments]. rewrite Hbs, Hq, IH.
        unfold push_back. now rewrite !append_assoc.
Qed.

Lemma passes_quoted (v : string) : passes (quoted v).
Proof.
  rewrite quoted_eq.
  destruct (NeedsQuotes v (String.length v)) eqn:Hneeds.
  - intros rest cur. cbn [append split_segments].
    replace (Ascii.eqb dquote ","%char) with false by reflexivity.
    rewrite Ascii.eqb_refl, append_assoc. cbn [append].
    rewrite split_quoted_body. unfold push_back.
    now rewrite !append_assoc.
  - apply passes_plain. unfold NeedsQuotes in Hneeds.
    destruct (String.length v <=? 0)%nat; [discriminate|].
    destruct (isspace (at_ v 0)); [discriminate|].
    destruct (isspace (at_ v (String.length v - 1))); [discriminate|].
    exact Hneeds.
Qed.

Lemma passes_array_element (element : option string) :
  passes (array_element false element).
Proof.
  destruct element as [text|]; cbn [array_element].
  - apply passes_quoted.
  - apply passes_plain. reflexivity.
Qed.

Lemma passes_composite_field (field : option string) :
  passes (composite_field field).
Proof.
  destruct field as [text|]; cbn [composite_field].
  - apply passes_quoted.
  - apply passes_plain. reflexivity.
Qed.

(** Segments that pass are found again by the split. *)
Lemma split_concat (segments : list string) :
  Forall passes segments -> segments <> [] ->
  split_segments (String.concat "," segments) Plain EmptyString = segments.
Proof.
  intros Hall Hne. destruct segments as [|t ts]; [contradiction|]. clear Hne.
  revert t Hall. induction ts as [|t' ts IH]; intros t Hall.
  - inversion Hall as [|? ? Ht _]; subst. cbn [String.concat].
    rewrite <- (append_nil_r t) at 1. rewrite Ht. reflexivity.
  - inversion Hall as [|? ? Ht Hts]; subst.
    change (String.concat "," (t :: t' :: ts))
      with (t ++ "," ++ String.concat "," (t' :: ts)).
    rewrite Ht. cbn [append split_segments Ascii.eqb Bool.eqb].
    now rewrite IH.
Qed.

Lemma concat_segments_inj (l l' : list string) :
  Forall passes l -> Forall passes l' -> l <> [] -> l' <> [] ->
  String.concat "," l = String.concat "," l' -> l = l'.
Proof.
  intros Hl Hl' Hne Hne' Heq.
  rewrite <- (split_concat l Hl Hne), <- (split_concat l' Hl' Hne').
  now rewrite Heq.
Qed.

Lemma append_inv_tail (a b c : string) : a ++ c = b ++ c -> a = b.
Proof.
  revert b. induction a as [|x a IH]; intros b H.
  - destruct b as [|y b]; [reflexivity|]. exfalso.
    apply (f_equal String.length) in H. cbn in H.
    rewrite length_append in H. lia.
  - destruct b as [|y b].
    + exfalso. apply (f_equal String.length) in H. cbn in H.
      rewrite length_append in H. lia.
    + cbn in H. injection H as -> H. now rewrite (IH b H).
Qed.

Lemma composite_field_inj (x y : option string) :
  composite_field x = composite_field y -> x = y.
Proof.
  destruct x as [v|], y as [w|]; cbn [composite_field]; intros H.
  - now rewrite (quoted_inj v w H).
  - now destruct (quoted_nonempty v).
  - symmetry in H. now destruct (quoted_nonempty w).
  - reflexivity.
Qed.

Lemma map_inj {A B : Type} (f : A -> B) :
  (forall x y, f x = f y -> x = y) ->
  forall l l', map f l = map f l' -> l = l'.
Proof.
  intros Hf. induction l as [|x l IH]; intros [|y l'] H; cbn in H;
    try discriminate; [reflexivity|].
  injection H as Hxy H. now rewrite (Hf x y Hxy), (IH l' H).
Qed.

Lemma composite_literal_inj (fields fields' : list (option string)) :
  List.length fields = List.length fields' ->
  composite_literal fields = composite_literal fields' ->
  fields = fields'.
Proof.
  intros Hlen Heq. unfold composite_literal in Heq.
  apply append_inv_head, append_inv_tail in Heq.
  destruct fields as [|f fs], fields' as [|f' fs']; try discriminate;
    [reflexivity|].
  apply (map_inj composite_field composite_field_inj).
  apply concat_segments_inj; try (cbn; discriminate); try assumption.
  - rewrite Forall_forall. intros t Ht. apply in_map_iff in Ht.
    destruct Ht as [x [<- _]]. apply passes_composite_field.
  - rewrite Forall_forall. intros t Ht. apply in_map_iff in Ht.
    destruct Ht as [x [<- _]]. apply passes_composite_field.
Qed.

(** *** Struct rows *)

(** X1.  The literal of a struct row determines the row: two rows with
    the same number of fields and the same literal have the same fields,
    nulls included.  (The count matters: no field at all and one null
    field are both written as two parentheses.) *)
Theorem struct_row_determines_fields :
  (forall (vectors vectors' : list VarcharVector) (r r' : nat)
          (fields fields' : list (option string)),
      fields_at vectors r = Some fields ->
      fields_at vectors' r' = Some fields' ->
      List.length fields = List.length fields' ->
      struct_row vectors r = struct_row vectors' r' ->
      fields = fields')
  /\ (forall r column,
        nth_error column r = Some None ->
        struct_row [] r = struct_row [column] r).
Proof.
  split.
  - intros vectors vectors' r r' fields fields' H H' Hlen Heq.
    rewrite (struct_row_spec _ _ _ H), (struct_row_spec _ _ _ H') in Heq.
    apply composite_literal_inj; [assumption | congruence].
  - intros r column Hnull.
    rewrite (struct_row_spec [] r [] eq_refl).
    rewrite (struct_row_spec [column] r [None]); [reflexivity|].
    unfold fields_at. cbn. now rewrite Hnull.
Qed.

(** *** List rows *)

Lemma for_loopM_ext {T : Type} (f g : nat -> T -> option T) :
  forall n c s,
    (forall r s', c <= r < c + n -> f r s' = g r s') ->
    for_loopM f c n s = for_loopM g c n s.
Proof.
  induction n as [|n IH]; intros c s Hfg; simpl.
  - reflexivity.
  - rewrite Hfg by lia. destruct (g c s) as [s'|]; [|reflexivity].
    apply IH. intros r s'' Hr. apply Hfg. lia.
Qed.

(** A list row depends on the child buffer only through the way its
    elements are written. *)
Lemma list_row_written (skip_quoting : bool)
  (child_varchar child_varchar' : VarcharVector) (e : list_entry_t) :
  map (array_element skip_quoting) child_varchar =
  map (array_element skip_quoting) child_varchar' ->
  list_row skip_quoting child_varchar e =
  list_row skip_quoting child_varchar' e.
Proof.
  intros Hmap. unfold list_row. f_equal.
  apply for_loopM_ext. intros i acc _. cbv zeta.
  assert (Hi : option_map (array_element skip_quoting)
                 (nth_error child_varchar (le_offset e + i)) =
               option_map (array_element skip_quoting)
                 (nth_error child_varchar' (le_offset e + i))).
  { now rewrite <- !nth_error_map, Hmap. }
  destruct (nth_error child_varchar (le_offset e + i)) as [x|];
    destruct (nth_error child_varchar' (le_offset e + i)) as [y|];
    cbn in Hi; try discriminate; [|reflexivity].
  injection Hi as Hi. cbn.
  destruct x as [v|], y as [w|]; cbn [array_element] in Hi; cbn;
    destruct skip_quoting; cbn;
    rewrite ?QuoteAndEscapeIfNeeded_appends; now rewrite ?Hi, <- ?Hi.
Qed.

(** X2.  The text NULL is written without quotes, exactly like a null
    element: two list columns of the same type whose children cast to the
    same rows, except that one has the text NULL where the other has a
    null, are cast to the same array literals. *)
Theorem list_text_NULL_is_written_as_null
  (VectorOperations_Cast :
     ScalarTypeId -> list (option scalar_t) -> nat -> option VarcharVector) :
  forall (list_entries : list (option list_entry_t)) (child child' : Vector)
         (list_size size : nat) (before after : VarcharVector),
    GetType child = GetType child' ->
    CastToPostgresVarchar VectorOperations_Cast child list_size =
      Some (before ++ Some "NULL" :: after)%list ->
    CastToPostgresVarchar VectorOperations_Cast child' list_size =
      Some (before ++ None :: after)%list ->
    CastToPostgresVarchar VectorOperations_Cast
      (ListVector list_entries child list_size) size =
    CastToPostgresVarchar VectorOperations_Cast
      (ListVector list_entries child' list_size) size.
Proof.
  intros list_entries child child' list_size size before after Htype H H'.
  cbn [CastToPostgresVarchar]. unfold CastListToPostgresArray.
  rewrite H, H', Htype. cbn [bind Monad_option].
  apply for_loopM_ext. intros r acc _.
  destruct (nth_error list_entries r) as [[e|]|]; cbn -[list_row];
    try reflexivity.
  rewrite (list_row_written _ (before ++ Some "NULL" :: after)%list
             (before ++ None :: after)%list); [reflexivity|].
  rewrite !map_app. cbn [map array_element].
  now destruct (is_LIST (GetType child')).
Qed.

Lemma array_element_nonempty (element : option string) :
  array_element false element <> EmptyString.
Proof.
  destruct element as [text|]; cbn [array_element];
    [apply quoted_nonempty | discriminate].
Qed.

Lemma array_element_same (x y : option string) :
  array_element false x = array_element false y -> same_element x y.
Proof.
  unfold same_element.
  destruct x as [v|], y as [w|]; cbn [array_element]; intros H.
  - left. now rewrite (quoted_inj v w H).
  - right; right. split; [|reflexivity].
    apply (f_equal parse_token) in H. rewrite parse_token_quoted in H.
    now rewrite H.
  - right; left. split; [reflexivity|].
    apply (f_equal parse_token) in H. rewrite parse_token_quoted in H.
    now rewrite <- H.
  - now left.
Qed.

Lemma array_literal_same (elements elements' : list (option string)) :
  array_literal false elements = array_literal false elements' ->
  Forall2 same_element elements elements'.
Proof.
  intros Heq. unfold array_literal in Heq.
  apply append_inv_head, append_inv_tail in Heq.
  assert (Hpass : forall l : list (option string),
             Forall passes (map (array_element false) l)).
  { intros l. rewrite Forall_forall. intros t Ht. apply in_map_iff in Ht.
    destruct Ht as [x [<- _]]. apply passes_array_element. }
  destruct elements as [|x xs], elements' as [|y ys].
  - constructor.
  - exfalso. cbn [map] in Heq. rewrite concat_cons in Heq.
    destruct (array_element false y) eqn:E; [|discriminate].
    now apply array_element_nonempty in E.
  - exfalso. cbn [map] in Heq. rewrite concat_cons in Heq.
    destruct (array_element false x) eqn:E; [|discriminate].
    now apply array_element_nonempty in E.
  - apply concat_segments_inj in Heq; try (cbn; discriminate);
      try apply Hpass.
    revert Heq. generalize (x :: xs) as l, (y :: ys) as l'.
    induction l as [|a l IH]; intros [|b l'] Hmap; cbn in Hmap;
      try discriminate; [constructor|].
    injection Hmap as Hab Hmap. constructor.
    + now apply array_element_same.
    + now apply IH.
Qed.

(** X3.  Apart from that, the literal of a list row of a column that is
    not a list of lists determines the row: two rows with the same
    literal have the same number of elements, and element by element the
    same text or null, or a null on one side and the text NULL on the
    other. *)
Theorem list_row_determines_elements :
  forall (child_varchar child_varchar' : VarcharVector) (e e' : list_entry_t),
    le_offset e + le_length e <= List.length child_varchar ->
    le_offset e' + le_length e' <= List.length child_varchar' ->
    list_row false child_varchar e = list_row false child_varchar' e' ->
    Forall2 same_element (elements_of child_varchar e)
      (elements_of child_varchar' e').
Proof.
  intros child_varchar child_varchar' e e' Hrange Hrange' Heq.
  rewrite (list_row_spec _ _ _ Hrange), (list_row_spec _ _ _ Hrange') in Heq.
  apply array_literal_same. congruence.
Qed.

(** *** Blobs *)

Lemma concat_empty_cons (x : string) (l : list string) :
  String.concat EmptyString (x :: l) = x ++ String.concat EmptyString l.
Proof. destruct l; cbn; [now rewrite append_nil_r | reflexivity]. Qed.

Lemma length_hex_pairs (bytes : list ascii) :
  String.length (String.concat EmptyString (map hex_pair bytes)) =
  2 * List.length bytes.
Proof.
  induction bytes as [|b bytes IH]; [reflexivity|].
  cbn [map]. rewrite concat_empty_cons. cbn [hex_pair append String.length].
  rewrite IH. cbn [List.length]. lia.
Qed.

Lemma unhex_hex_pairs (bytes : list ascii) :
  unhex (String.concat EmptyString (map hex_pair bytes)) =
  Some (string_of_list_ascii bytes).
Proof.
  induction bytes as [|b bytes IH]; [reflexivity|].
  cbn [map]. rewrite concat_empty_cons. cbn [hex_pair append unhex].
  destruct (byte_nibbles b) as [Hhi Hlo].
  rewrite (hex_value_digit _ Hhi), (hex_value_digit _ Hlo), IH.
  cbn [string_of_list_ascii]. do 2 f_equal.
  rewrite <- (ascii_nat_embedding b) at 3. f_equal.
  symmetry. apply Nat.div_mod_eq.
Qed.

Lemma read_blob_literal (blob : string) :
  read_blob (blob_str_of blob) = Some blob.
Proof.
  rewrite blob_str_of_spec. unfold blob_literal. cbn [append read_blob].
  cbn [Ascii.eqb Bool.eqb andb]. rewrite unhex_hex_pairs.
  now rewrite string_of_list_ascii_of_string.
Qed.

Lemma length_list_ascii (s : string) :
  List.length (list_ascii_of_string s) = String.length s.
Proof. induction s as [|a s IH]; cbn; [reflexivity | now rewrite IH]. Qed.

(** X4.  The blob cast loses nothing and its size is known: every row
    it writes is two bytes plus two per input byte long, and reading the
    rows back (a null as a null, a token by its hexadecimal pairs) gives
    the input rows. *)
Theorem CastBlobToPostgres_round_trip :
  forall (input_data : list (option string)) (size : nat),
    size <= List.length input_data ->
    exists out,
      CastBlobToPostgres input_data size = Some out
      /\ Forall2 (fun row text => read_blob_row text = Some row)
           (firstn size input_data) out
      /\ Forall2 (fun row text =>
                    match row, text with
                    | Some blob, Some token =>
                        String.length token = 2 + 2 * String.length blob
                    | None, None => True
                    | _, _ => False
                    end)
           (firstn size input_data) out.
Proof.
  intros input_data size Hsize. eexists.
  split; [now apply CastBlobToPostgres_rows|].
  generalize (firstn size input_data) as rows.
  split; induction rows as [|row rows IH]; cbn [map]; constructor;
    try assumption; destruct row as [blob|]; cbn [blob_row option_map];
    try exact I; try reflexivity.
  - unfold read_blob_row. rewrite <- blob_str_of_spec.
    now rewrite read_blob_literal.
  - unfold blob_literal. cbn [append String.length].
    now rewrite length_hex_pairs, length_list_ascii.
Qed.

Lemma hex_digit_plain (n : nat) :
  n < 16 -> is_quote_or_backslash (hex_digit n) = false.
Proof.
  intros H. do 16 (destruct n as [|n]; [reflexivity|]). lia.
Qed.

Lemma escaped_hex_pairs (bytes : list ascii) :
  escaped (String.concat EmptyString (map hex_pair bytes)) =
  String.concat EmptyString (map hex_pair bytes).
Proof.
  induction bytes as [|b bytes IH]; [reflexivity|].
  cbn [map]. rewrite concat_empty_cons. cbn [hex_pair append escaped].
  destruct (byte_nibbles b) as [Hhi Hlo].
  now rewrite (hex_digit_plain _ Hhi), (hex_digit_plain _ Hlo), IH.
Qed.

Lemma quoted_blob (bytes : list ascii) :
  quoted (blob_literal bytes) = quoted_blob_literal bytes.
Proof.
  rewrite quoted_eq.
  assert (Hneeds :
    NeedsQuotes (blob_literal bytes) (String.length (blob_literal bytes)) =
    true).
  { unfold blob_literal, NeedsQuotes. cbn [append String.length Nat.leb].
    change (at_ (String "\" _) 0) with "\"%char.
    replace (isspace "\"%char) with false by reflexivity.
    destruct (isspace _); reflexivity. }
  rewrite Hneeds. unfold blob_literal, quoted_blob_literal.
  change (escaped ("\x" ++ String.concat EmptyString (map hex_pair bytes)))
    with ("\\x" ++ escaped (String.concat EmptyString (map hex_pair bytes))).
  now rewrite escaped_hex_pairs.
Qed.

Lemma array_element_blob_row (row : option string) :
  array_element false (blob_row row) = array_blob_element row.
Proof.
  destruct row as [blob|]; cbn [blob_row option_map array_element
                                array_blob_element]; [|reflexivity].
  apply quoted_blob.
Qed.

(** X5.  A blob inside a list is always quoted and its backslash is
    doubled: a list column over a blob column is cast, row by row, to
    the braces around the comma-joined elements, each the blob's token
    between double quotes with two backslashes, or NULL. *)
Theorem list_of_blobs_is_quoted
  (VectorOperations_Cast :
     ScalarTypeId -> list (option scalar_t) -> nat -> option VarcharVector) :
  forall (list_entries : list (option list_entry_t))
         (data : list (option string)) (list_size size : nat),
    list_size <= List.length data ->
    size <= List.length list_entries ->
    (forall r e, r < size -> nth_error list_entries r = Some (Some e) ->
                 le_offset e + le_length e <= list_size) ->
    CastToPostgresVarchar VectorOperations_Cast
      (ListVector list_entries (BlobVector data) list_size) size =
    Some (map (option_map
                 (fun e =>
                    "{" ++ String.concat ","
                             (map array_blob_element
                                (firstn (le_length e)
                                   (skipn (le_offset e) data)))
                        ++ "}"))
            (firstn size list_entries)).
Proof.
  intros list_entries data list_size size Hdata Hsize Hrange.
  rewrite (CastListToPostgresArray_rows VectorOperations_Cast list_entries
             (BlobVector data) list_size size
             (map blob_row (firstn list_size data))).
  - f_equal. apply map_ext_in. intros row Hrow.
    destruct row as [e|]; [|reflexivity]. cbn [array_row option_map GetType is_LIST].
    do 2 f_equal. unfold array_literal, elements_of.
    assert (He : le_offset e + le_length e <= list_size).
    { apply In_nth_error in Hrow. destruct Hrow as [r Hr].
      rewrite nth_error_firstn in Hr.
      destruct (Nat.ltb_spec r size) as [Hlt|]; [|discriminate].
      now apply (Hrange r e). }
    rewrite skipn_map, firstn_map, map_map.
    rewrite (map_ext _ _ array_element_blob_row).
    rewrite skipn_firstn_comm, firstn_firstn.
    replace (Nat.min (le_length e) (list_size - le_offset e))
      with (le_length e) by lia.
    reflexivity.
  - cbn [CastToPostgresVarchar]. now apply CastBlobToPostgres_rows.
  - assumption.
  - intros r e Hr He. rewrite length_map, length_firstn.
    specialize (Hrange r e Hr He). lia.
Qed.

(** *** The size of a token *)

Lemma length_escaped (v : string) :
  String.length v <= String.length (escaped v) <= 2 * String.length v.
Proof.
  induction v as [|ch v IH]; cbn [escaped String.length]; [lia|].
  destruct (is_quote_or_backslash ch); cbn [String.length]; lia.
Qed.

(** X6.  Quoting never shortens a text and at most doubles it, plus the
    two quotes. *)
Theorem quoted_length_bounds (v result : string) :
  String.length result + String.length v
  <= String.length (QuoteAndEscapeIfNeeded v result (String.length v))
  <= String.length result + 2 * String.length v + 2.
Proof.
  rewrite QuoteAndEscapeIfNeeded_appends, length_append, quoted_eq.
  pose proof (length_escaped v) as Hesc.
  destruct (NeedsQuotes v (String.length v)).
  - cbn [String.length]. rewrite length_append. cbn [String.length]. lia.
  - lia.
Qed.

(** *** Literals inside literals *)

Lemma for_loopM_appends (body : nat -> string -> option string) :
  (forall c acc acc', body c acc = Some acc' -> exists s, acc' = acc ++ s) ->
  forall n c acc out,
    for_loopM body c n acc = Some out -> exists s, out = acc ++ s.
Proof.
  intros Hbody n. induction n as [|n IH]; intros c acc out H; cbn in H.
  - injection H as <-. exists EmptyString. now rewrite append_nil_r.
  - destruct (body c acc) as [acc'|] eqn:Hb; [|discriminate].
    destruct (Hbody c acc acc' Hb) as [s ->].
    destruct (IH (S c) _ out H) as [s' ->].
    exists (s ++ s'). now rewrite append_assoc.
Qed.

Lemma for_loopM_rows_Forall {B : Type} (P : B -> Prop)
  (body : nat -> list B -> option (list B)) :
  (forall r acc acc', body r acc = Some acc' ->
                      exists x, acc' = (acc ++ [x])%list /\ P x) ->
  forall n c acc out,
    Forall P acc -> for_loopM body c n acc = Some out -> Forall P out.
Proof.
  intros Hbody n. induction n as [|n IH]; intros c acc out Hacc H; cbn in H.
  - now injection H as <-.
  - destruct (body c acc) as [acc'|] eqn:Hb; [|discriminate].
    destruct (Hbody c acc acc' Hb) as [x [-> Hx]].
    apply (IH (S c) (acc ++ [x])%list out); [|assumption].
    apply Forall_app. split; [assumption | now constructor].
Qed.

Lemma list_row_opens (skip_quoting : bool) (child_varchar : VarcharVector)
  (e : list_entry_t) (text : string) :
  list_row skip_quoting child_varchar e = Some text ->
  exists s, text = String "{" s.
Proof.
  unfold list_row. intros H.
  destruct (for_loopM _ 0 (le_length e) "{") as [result|] eqn:Hloop;
    [|discriminate].
  cbn in H. injection H as <-.
  apply for_loopM_appends in Hloop.
  - destruct Hloop as [s ->]. now exists (s ++ "}").
  - intros c acc acc'. cbv zeta.
    destruct (0 <? c)%nat;
      (destruct (nth_error child_varchar (le_offset e + c)) as [[child|]|];
       cbn; [| |discriminate];
       [destruct skip_quoting; cbn|]; intros [= <-];
       rewrite ?QuoteAndEscapeIfNeeded_appends, ?append_assoc;
       eexists; reflexivity).
Qed.

Lemma struct_row_opens (child_varchar_vectors : list VarcharVector)
  (r : nat) (text : string) :
  struct_row child_varchar_vectors r = Some text ->
  exists s, text = String "(" s.
Proof.
  unfold struct_row. intros H.
  destruct (for_loopM _ 0 (List.length child_varchar_vectors) "(")
    as [result|] eqn:Hloop; [|discriminate].
  cbn in H. injection H as <-.
  apply for_loopM_appends in Hloop.
  - destruct Hloop as [s ->]. now exists (s ++ ")").
  - intros c acc acc'. cbv zeta.
    destruct (0 <? c)%nat;
      (destruct (nth_error child_varchar_vectors c) as [col|]; cbn;
       [|discriminate];
       destruct (nth_error col r) as [[child|]|]; cbn; [| |discriminate];
       intros [= <-];
       rewrite ?QuoteAndEscapeIfNeeded_appends, ?append_assoc;
       eexists; reflexivity).
Qed.

Lemma NeedsQuotes_special_head (a : ascii) (s : string) :
  is_list_or_struct_char a = true ->
  NeedsQuotes (String a s) (String.length (String a s)) = true.
Proof.
  intros Ha. unfold NeedsQuotes. cbn [String.length Nat.leb].
  destruct (isspace _); [reflexivity|].
  destruct (isspace _); [reflexivity|].
  cbn [NeedsQuotes_loop]. change (at_ (String a s) 0) with a.
  now rewrite Ha.
Qed.

Lemma blob_str_of_opens (blob : string) :
  exists s, blob_str_of blob = String "\" s.
Proof.
  rewrite blob_str_of_spec. unfold blob_literal. cbn [append].
  eexists. reflexivity.
Qed.

(** X16.  What the list, struct and blob casters write always needs
    quotes: every non-null row they produce makes [NeedsQuotes] true.  So
    a struct or a blob inside a list, and a list, a struct or a blob
    inside a struct, is written between double quotes; only a list
    directly inside a list, which skips the quoting, is not. *)
Theorem nested_literal_needs_quotes
  (VectorOperations_Cast :
     ScalarTypeId -> list (option scalar_t) -> nat -> option VarcharVector) :
  forall (input : Vector) (size : nat) (out : VarcharVector),
    (forall id, GetType input <> SCALAR id) ->
    CastToPostgresVarchar VectorOperations_Cast input size = Some out ->
    forall r text,
      nth_error out r = Some (Some text) ->
      NeedsQuotes text (String.length text) = true
      /\ QuoteAndEscapeIfNeeded text EmptyString (String.length text) =
         String dquote (escaped text ++ String dquote EmptyString).
Proof.
  intros input size out Htype Hcast r text Hrow.
  assert (Hneeds : NeedsQuotes text (String.length text) = true).
  { assert (Hall :
      Forall (fun row =>
                match row with
                | Some text => NeedsQuotes text (String.length text) = true
                | None => True
                end) out).
    { destruct input as [list_entries child list_size | validity entries
                        | data | id data]; cbn [CastToPostgresVarchar] in Hcast.
      - unfold CastListToPostgresArray in Hcast.
        destruct (CastToPostgresVarchar VectorOperations_Cast child list_size)
          as [child_varchar|]; [|discriminate].
        cbn [bind Monad_option] in Hcast.
        apply for_loopM_rows_Forall with (P := fun row =>
                match row with
                | Some text => NeedsQuotes text (String.length text) = true
                | None => True
                end) in Hcast; [assumption| |constructor].
        intros r0 acc acc'.
        destruct (nth_error list_entries r0) as [[e|]|]; cbn -[list_row];
          [| |discriminate].
        + destruct (list_row _ _ e) as [t|] eqn:Ht; cbn; [|discriminate].
          intros [= <-]. exists (Some t). split; [reflexivity|].
          destruct (list_row_opens _ _ _ _ Ht) as [s ->].
          now apply NeedsQuotes_special_head.
        + intros [= <-]. exists None. now split.
      - unfold CastStructToPostgres in Hcast.
        destruct (cast_each _ entries) as [cvs|]; [|discriminate].
        cbn [bind Monad_option] in Hcast.
        apply for_loopM_rows_Forall with (P := fun row =>
                match row with
                | Some text => NeedsQuotes text (String.length text) = true
                | None => True
                end) in Hcast; [assumption| |constructor].
        intros r0 acc acc'.
        destruct (nth_error validity r0) as [[|]|]; cbn -[struct_row];
          [| |discriminate].
        + destruct (struct_row cvs r0) as [t|] eqn:Ht; cbn; [|discriminate].
          intros [= <-]. exists (Some t). split; [reflexivity|].
          destruct (struct_row_opens _ _ _ Ht) as [s ->].
          now apply NeedsQuotes_special_head.
        + intros [= <-]. exists None. now split.
      - unfold CastBlobToPostgres in Hcast.
        apply for_loopM_rows_Forall with (P := fun row =>
                match row with
                | Some text => NeedsQuotes text (String.length text) = true
                | None => True
                end) in Hcast; [assumption| |constructor].
        intros r0 acc acc'.
        destruct (nth_error data r0) as [[blob|]|]; cbn; [| |discriminate].
        + intros [= <-]. exists (Some (blob_str_of blob)).
          split; [reflexivity|].
          destruct (blob_str_of_opens blob) as [s ->].
          now apply NeedsQuotes_special_head.
        + intros [= <-]. exists None. now split.
      - now destruct (Htype id). }
    rewrite Forall_forall in Hall.
    apply (Hall (Some text)). now apply nth_error_In with r. }
  split; [assumption|].
  change (QuoteAndEscapeIfNeeded text EmptyString (String.length text))
    with (quoted text).
  now rewrite quoted_eq, Hneeds.
Qed.

End LiteralFacts.

(** ** More on the copy session driver *)

Module DriverFacts.
Import Quoting Session Literal QuotingFacts CastingFacts SessionFacts.

Section Driver.

Variable PQerrorMessage : PGconn -> string.
Variable WriteQuoted : string -> ascii -> string.
Variable BinaryWriter_Header : PostgresCopyState -> string.
Variable BinaryWriter_Footer : PostgresCopyState -> string.
Variable TextWriter_Footer : PostgresCopyState -> string.

(** X7.  Once the server accepts the command, [BeginCopyTo] transmits
    the binary header, and nothing else, in a binary session (one send
    per attempt until it is taken), and transmits nothing in a text
    session; when the server does not accept the command nothing is
    transmitted in either format. *)
Theorem BeginCopyTo_header_only_for_binary :
  forall (context : ClientContext) (schema_name table_name : string)
         (column_names : list string) (reply : option PGresult)
         (execs : list (option PGresult)) (k : nat) (code : Z)
         (rest ends : list Z) (results : list (option PGresult))
         (made : list PQcall) (s0 : PostgresCopyState),
    (forall replacement_str,
        TryGetCurrentSetting context "pg_null_byte_replacement" =
          Some (StringValue replacement_str) ->
        ~ has_null_byte replacement_str) ->
    code <> 0%Z -> code <> (-1)%Z ->
    let w :=
      mk_world
        (mk_conn (reply :: execs) (repeat 0%Z k ++ code :: rest) ends results
           made) s0 in
    let begin := fun f =>
      BeginCopyTo PQerrorMessage WriteQuoted BinaryWriter_Header context f
        schema_name table_name column_names w in
    let query := fun f =>
      PQexec (c_str (copy_command (fun name => WriteQuoted name dquote) f
                       schema_name table_name column_names)) in
    let header := BinaryWriter_Header (state (snd (begin BINARY))) in
    (accepts_copy_data reply = true ->
       fst (begin BINARY) = Returns tt
       /\ calls (conn (snd (begin BINARY))) =
          (made ++ query BINARY
             :: repeat (PQputCopyData header (to_int (String.length header)))
                  (S k))%list
       /\ putCopyData_script (conn (snd (begin BINARY))) = rest
       /\ fst (begin TEXT) = Returns tt
       /\ calls (conn (snd (begin TEXT))) = (made ++ [query TEXT])%list
       /\ putCopyData_script (conn (snd (begin TEXT))) =
          (repeat 0%Z k ++ code :: rest)%list)
    /\ (accepts_copy_data reply = false ->
          forall f, f <> OTHER_FORMAT ->
            (exists e, fst (begin f) = Throws (runtime_error e))
            /\ calls (conn (snd (begin f))) = (made ++ [query f])%list
            /\ putCopyData_script (conn (snd (begin f))) =
               (repeat 0%Z k ++ code :: rest)%list).
Proof.
  intros context schema_name table_name column_names reply execs k code rest
    ends results made s0 Hsetting Hcode Hhard w begin query header.
  assert (Hrun := fun f Hf =>
    BeginCopyTo_run PQerrorMessage WriteQuoted BinaryWriter_Header context f
      schema_name table_name column_names reply execs
      (repeat 0%Z k ++ code :: rest)%list ends results made s0 Hf Hsetting).
  cbv zeta in Hrun. fold w in Hrun.
  split.
  - intros Haccept.
    assert (Hbin := Hrun BINARY ltac:(discriminate)).
    assert (Htext := Hrun TEXT ltac:(discriminate)).
    rewrite Haccept in Hbin, Htext.
    unfold CopyData_writer in Hbin. rewrite CopyData_run in Hbin by assumption.
    destruct (Z.eqb_spec code (-1)) as [|_]; [contradiction|].
    subst header. unfold begin. rewrite Hbin, Htext.
    cbn [fst snd conn state calls putCopyData_script].
    rewrite <- app_assoc. now repeat split.
  - intros Hreject f Hf. specialize (Hrun f Hf). rewrite Hreject in Hrun.
    unfold begin. rewrite Hrun. cbn [fst snd conn calls putCopyData_script].
    split; [eexists; reflexivity|]. now split.
Qed.

(** X8.  With a format that is neither binary nor text, [BeginCopyTo]
    throws before it talks to the server: no call is made, but the
    session state already carries the new format and what [Initialize]
    recorded. *)
Theorem BeginCopyTo_unsupported_format :
  forall (context : ClientContext) (schema_name table_name : string)
         (column_names : list string) (w : World),
    (forall replacement_str,
        TryGetCurrentSetting context "pg_null_byte_replacement" =
          Some (StringValue replacement_str) ->
        ~ has_null_byte replacement_str) ->
    let s1 := state (snd (Initialize context w)) in
    BeginCopyTo PQerrorMessage WriteQuoted BinaryWriter_Header context
      OTHER_FORMAT schema_name table_name column_names w =
    (Throws (InternalException "Unsupported type for postgres copy format"),
     mk_world (conn w)
       (mk_copy_state OTHER_FORMAT (has_null_byte_replacement s1)
          (null_byte_replacement s1))).
Proof.
  intros context schema_name table_name column_names w Hsetting s1.
  assert (Hinit : Initialize context w = (Returns tt, mk_world (conn w) s1)).
  { subst s1. rewrite Initialize_run.
    destruct (TryGetCurrentSetting context "pg_null_byte_replacement")
      as [[|replacement_str]|] eqn:E; try (now destruct w).
    destruct (contains_null_byte replacement_str) eqn:Hnul; [|reflexivity].
    apply contains_null_byte_spec in Hnul. now apply Hsetting in Hnul. }
  unfold BeginCopyTo. cbv zeta. cbn [bind Monad_M]. rewrite Hinit.
  reflexivity.
Qed.


(** X10.  When the transmission of the footer fails for good,
    [FinishCopyTo] throws that error and stops: the end of the copy data
    is not signalled and no result is fetched. *)
Theorem FinishCopyTo_footer_failure :
  forall (k : nat) (rest : list Z) (execs : list (option PGresult))
         (ends : list Z) (results : list (option PGresult))
         (made : list PQcall) (s : PostgresCopyState),
    format s <> OTHER_FORMAT ->
    let footer := footer_of BinaryWriter_Footer TextWriter_Footer s in
    let after :=
      mk_conn execs rest ends results
        (made
           ++ repeat (PQputCopyData footer (to_int (String.length footer)))
                (S k)) in
    FinishCopyTo PQerrorMessage BinaryWriter_Footer TextWriter_Footer
      (mk_world (mk_conn execs (repeat 0%Z k ++ (-1)%Z :: rest) ends results made)
         s) =
    (Throws (InternalException
               ("Error during PQputCopyData: " ++ PQerrorMessage after)),
     mk_world after s).
Proof.
  intros k rest execs ends results made s Hformat footer after.
  unfold FinishCopyTo. cbn [bind Monad_M get_state state].
  assert (Hfooter :
    match format s with
    | BINARY => CopyData_writer PQerrorMessage (BinaryWriter_Footer s)
    | TEXT => CopyData_writer PQerrorMessage (TextWriter_Footer s)
    | OTHER_FORMAT => ret tt
    end = CopyData_writer PQerrorMessage footer).
  { subst footer. unfold footer_of.
    destruct (format s); [reflexivity | reflexivity | contradiction]. }
  rewrite Hfooter. unfold CopyData_writer.
  rewrite CopyData_run by discriminate. reflexivity.
Qed.

(** X11.  In a session whose format is neither binary nor text,
    [FinishCopyTo] transmits no footer and goes straight to the
    handshake: the end signal, then, if it is accepted, the result. *)
Theorem FinishCopyTo_no_footer_without_format :
  forall (execs : list (option PGresult)) (datas : list Z) (end_code : Z)
         (ends : list Z) (result : option PGresult)
         (results : list (option PGresult)) (made : list PQcall)
         (s : PostgresCopyState),
    format s = OTHER_FORMAT ->
    let finish :=
      FinishCopyTo PQerrorMessage BinaryWriter_Footer TextWriter_Footer
        (mk_world
           (mk_conn execs datas (end_code :: ends) (result :: results) made)
           s) in
    putCopyData_script (conn (snd finish)) = datas
    /\ calls (conn (snd finish)) =
       (made ++ PQputCopyEnd
          :: (if (end_code =? 1)%Z then [PQgetResult] else []))%list
    /\ (fst finish = Returns tt <->
        end_code = 1%Z /\ command_ok result = true).
Proof.
  intros execs datas end_code ends result results made s Hformat finish.
  subst finish. unfold FinishCopyTo, putCopyEnd, getResult.
  cbn [bind ret Monad_M get_state state]. rewrite Hformat.
  cbn [bind ret Monad_M GetConn put_conn conn state exec_script
       putCopyData_script putCopyEnd_script getResult_script calls].
  destruct (Z.eqb_spec end_code 1) as [->|Hne]; cbn [negb].
  - cbn [bind ret Monad_M GetConn put_conn conn state exec_script
         putCopyData_script putCopyEnd_script getResult_script calls].
    destruct result as [r|]; cbn [command_ok].
    + destruct (ExecStatusType_eqb (PQresultStatus r) PGRES_COMMAND_OK);
        cbn [fst snd conn calls putCopyData_script throw];
        rewrite <- app_assoc; (split; [reflexivity|]);
        (split; [reflexivity|]); split.
      * intros _. split; reflexivity.
      * intros _. reflexivity.
      * discriminate.
      * intros [_ H]. discriminate.
    + cbn [fst snd conn calls putCopyData_script throw].
      rewrite <- app_assoc. split; [reflexivity|]. split; [reflexivity|].
      split; [discriminate | intros [_ H]; discriminate].
  - cbn [throw fst snd conn calls putCopyData_script].
    split; [reflexivity|]. split; [reflexivity|].
    split; [discriminate | intros [H _]; contradiction].
Qed.

(** X12.  Nothing in [FinishCopyTo] closes the session: the state comes
    out as it went in, and a second call sends the footer, the end
    signal and the result fetch all over again. *)
Theorem FinishCopyTo_twice :
  forall (code code' : Z) (rest : list Z) (execs : list (option PGresult))
         (ends : list Z) (result result' : option PGresult)
         (results : list (option PGresult)) (made : list PQcall)
         (s : PostgresCopyState),
    format s <> OTHER_FORMAT ->
    code <> 0%Z -> code <> (-1)%Z -> code' <> 0%Z -> code' <> (-1)%Z ->
    command_ok result = true ->
    let finish :=
      FinishCopyTo PQerrorMessage BinaryWriter_Footer TextWriter_Footer in
    let footer := footer_of BinaryWriter_Footer TextWriter_Footer s in
    let once :=
      [PQputCopyData footer (to_int (String.length footer));
       PQputCopyEnd; PQgetResult] in
    let w :=
      mk_world
        (mk_conn execs (code :: code' :: rest) (1%Z :: 1%Z :: ends)
           (result :: result' :: results) made) s in
    state (snd (finish w)) = s
    /\ fst (finish w) = Returns tt
    /\ calls (conn (snd (finish (snd (finish w))))) =
       (made ++ once ++ once)%list.
Proof.
  intros code code' rest execs ends result result' results made s Hformat
    Hcode Hhard Hcode' Hhard' Hok finish footer once w.
  pose proof (FinishCopyTo_run PQerrorMessage BinaryWriter_Footer
                TextWriter_Footer 0 code (code' :: rest) execs 1%Z
                (1%Z :: ends) (result :: result' :: results) made s Hformat
                Hcode Hhard) as Hfirst.
  cbv zeta in Hfirst. cbn [repeat app Z.eqb Pos.eqb] in Hfirst.
  fold footer in Hfirst. rewrite Hok in Hfirst.
  subst finish w. cbn [repeat app]. rewrite Hfirst. cbn [fst snd state].
  split; [reflexivity|]. split; [reflexivity|].
  pose proof (FinishCopyTo_run PQerrorMessage BinaryWriter_Footer
                TextWriter_Footer 0 code' rest execs 1%Z ends
                (result' :: results)
                (((made ++ [PQputCopyData footer
                              (to_int (String.length footer))])
                    ++ [PQputCopyEnd]) ++ [PQgetResult])%list
                s Hformat Hcode' Hhard') as Hsecond.
  cbv zeta in Hsecond. cbn [repeat app Z.eqb Pos.eqb] in Hsecond.
  fold footer in Hsecond. rewrite Hsecond.
  cbn [snd conn calls]. subst once.
  rewrite <- !app_assoc. reflexivity.
Qed.

(** X13.  [CopyData] hands the primitive the buffer's size narrowed to a
    32-bit [int]: the size itself below 2^31, and a negative number from
    2^31 up to 2^32. *)
Theorem CopyData_size_narrowed :
  forall (buffer : string) (size : nat) (code : Z) (rest : list Z)
         (execs : list (option PGresult)) (ends : list Z)
         (results : list (option PGresult)) (made : list PQcall)
         (s : PostgresCopyState),
    code <> 0%Z ->
    exists nbytes,
      calls (conn (snd (CopyData PQerrorMessage buffer size
                          (mk_world
                             (mk_conn execs (code :: rest) ends results made)
                             s)))) =
        (made ++ [PQputCopyData buffer nbytes])%list
      /\ (- 2 ^ 31 <= nbytes < 2 ^ 31)%Z
      /\ ((Z.of_nat size < 2 ^ 31)%Z -> nbytes = Z.of_nat size)
      /\ ((2 ^ 31 <= Z.of_nat size < 2 ^ 32)%Z ->
          nbytes = (Z.of_nat size - 2 ^ 32)%Z /\ (nbytes < 0)%Z).
Proof.
  intros buffer size code rest execs ends results made s Hcode.
  exists (to_int size). split.
  - pose proof (CopyData_run PQerrorMessage buffer size 0 code rest execs ends
                  results made s Hcode) as Hrun.
    cbv zeta in Hrun. cbn [repeat app] in Hrun. rewrite Hrun. reflexivity.
  - unfold to_int.
    pose proof (Z.mod_pos_bound (Z.of_nat size + 2 ^ 31) (2 ^ 32)
                  ltac:(lia)) as Hmod.
    split; [lia|]. split.
    + intros Hsmall. rewrite Z.mod_small by lia. lia.
    + intros Hbig.
      replace (Z.of_nat size + 2 ^ 31)%Z
        with (Z.of_nat size - 2 ^ 31 + 1 * 2 ^ 32)%Z by lia.
      rewrite Z.mod_add by lia. rewrite Z.mod_small by lia. lia.
Qed.

End Driver.

End DriverFacts.

(** ** Row batches *)

Module ChunkFacts.
Import Quoting Casting Session Literal Chunk.
Import QuotingFacts CastingFacts SessionFacts.

(** *** Loops in step *)

(** Two loops that keep a relation between their states at every index
    they visit end in related states. *)
Lemma for_loopM_sim {A B : Type} (R : A -> B -> Prop)
  (f : nat -> A -> option A) (g : nat -> B -> option B) :
  forall n c a b,
    R a b ->
    (forall i a b, c <= i < c + n -> R a b ->
       exists a' b', f i a = Some a' /\ g i b = Some b' /\ R a' b') ->
    exists a' b',
      for_loopM f c n a = Some a' /\ for_loopM g c n b = Some b' /\ R a' b'.
Proof.
  induction n as [|n IH]; intros c a b Hab Hstep.
  - exists a, b. now repeat split.
  - destruct (Hstep c a b ltac:(lia) Hab) as [a1 [b1 [Hf [Hg H1]]]].
    destruct (IH (S c) a1 b1 H1) as [a' [b' [Hfa [Hgb H']]]].
    { intros i a2 b2 Hi. apply Hstep. lia. }
    exists a', b'. cbn [for_loopM]. rewrite Hf, Hg. now repeat split.
Qed.

(** A loop that appends one line per iteration writes the lines in
    order. *)
Lemma for_loopM_lines (line : nat -> string) :
  forall n c acc,
    for_loopM (fun r acc => Some (acc ++ line r)) c n acc =
    Some (acc ++ String.concat EmptyString (map line (seq c n))).
Proof.
  induction n as [|n IH]; intros c acc.
  - cbn. now rewrite append_nil_r.
  - cbn [for_loopM seq map]. rewrite IH.
    destruct (map line (seq (S c) n)) as [|l ls] eqn:E.
    + cbn. now rewrite !append_nil_r.
    + change (String.concat EmptyString (line c :: l :: ls))
        with (line c ++ EmptyString ++ String.concat EmptyString (l :: ls)).
      cbn [append]. now rewrite append_assoc.
Qed.

(** *** Casting the columns *)

Lemma set_column_at (done pending : list VarcharVector)
  (old rows : VarcharVector) :
  set_column (done ++ old :: pending)%list (List.length done) rows =
  Some (done ++ rows :: pending)%list.
Proof.
  induction done as [|d done IH]; [reflexivity|].
  cbn [app List.length set_column]. now rewrite IH.
Qed.

Lemma cast_loop (f : Vector -> option VarcharVector) :
  forall (suffix prefix : list Vector) (done pending ys : list VarcharVector),
    cast_each f suffix = Some ys ->
    List.length done = List.length prefix ->
    List.length pending = List.length suffix ->
    for_loopM
      (fun c columns =>
         col <- nth_error (prefix ++ suffix)%list c ;;
         rows <- f col ;;
         set_column columns c rows)
      (List.length prefix) (List.length suffix) (done ++ pending)%list =
    Some (done ++ ys)%list.
Proof.
  induction suffix as [|col suffix IH];
    intros prefix done pending ys Hcast Hdone Hpending.
  - cbn in Hcast. injection Hcast as <-.
    destruct pending; [reflexivity | discriminate].
  - cbn in Hcast. destruct (f col) as [y|] eqn:Hy; [|discriminate].
    destruct (cast_each f suffix) as [ys'|] eqn:Hys; [|discriminate].
    injection Hcast as <-.
    destruct pending as [|old pending]; [discriminate|].
    cbn [List.length for_loopM].
    rewrite nth_error_app2 by lia. rewrite Nat.sub_diag. cbn [nth_error].
    cbn [bind Monad_option]. rewrite Hy. rewrite <- Hdone, set_column_at.
    specialize (IH (prefix ++ [col])%list (done ++ [y])%list pending ys'
                  eq_refl).
    rewrite !length_app, <- !app_assoc in IH. cbn [List.length app] in IH.
    rewrite !Nat.add_1_r in IH. rewrite Hdone. apply IH.
    + lia.
    + cbn in Hpending. lia.
Qed.

Section TextBatch.

Variable PQerrorMessage : PGconn -> string.
Variable VectorOperations_Cast :
  ScalarTypeId -> list (option scalar_t) -> nat -> option VarcharVector.
Variable BinaryWriter : Type.
Variable PostgresBinaryWriter : PostgresCopyState -> BinaryWriter.
Variable Binary_BeginRow : nat -> BinaryWriter -> BinaryWriter.
Variable Binary_WriteValue : Vector -> nat -> BinaryWriter -> BinaryWriter.
Variable Binary_FinishRow : BinaryWriter -> BinaryWriter.
Variable Binary_stream : BinaryWriter -> string.
Variable TextWriter : Type.
Variable PostgresTextWriter : PostgresCopyState -> TextWriter.
Variable Text_WriteSeparator : TextWriter -> TextWriter.
Variable Text_WriteValue : VarcharVector -> nat -> TextWriter -> TextWriter.
Variable Text_FinishRow : TextWriter -> TextWriter.
Variable Text_stream : TextWriter -> string.

Lemma cast_columns_run (chunk : DataChunk) (varchar_chunk : VarcharChunk)
  (columns : list VarcharVector) :
  List.length (varchar_data varchar_chunk) = 0
  \/ List.length (varchar_data varchar_chunk) = ColumnCount chunk ->
  cast_each
    (fun col =>
       CastToPostgresVarchar VectorOperations_Cast col (chunk_size chunk))
    (chunk_data chunk) = Some columns ->
  cast_columns VectorOperations_Cast chunk varchar_chunk =
  Some (mk_varchar_chunk columns (chunk_size chunk)).
Proof.
  intros Hcount Hcast. unfold cast_columns.
  set (fresh :=
         if (List.length (varchar_data varchar_chunk) =? 0)%nat
         then mk_varchar_chunk (repeat [] (ColumnCount chunk)) 0
         else mk_varchar_chunk
                (map (fun _ => []) (varchar_data varchar_chunk)) 0).
  assert (Hfresh : List.length (varchar_data fresh) = ColumnCount chunk).
  { subst fresh. destruct (Nat.eqb_spec (List.length (varchar_data varchar_chunk)) 0).
    - cbn. apply repeat_length.
    - cbn. rewrite length_map. destruct Hcount; [contradiction | assumption]. }
  cbv zeta. rewrite Hfresh, Nat.eqb_refl. cbn [negb].
  pose proof (cast_loop
                (fun col =>
                   CastToPostgresVarchar VectorOperations_Cast col
                     (chunk_size chunk))
                (chunk_data chunk) [] [] (varchar_data fresh) columns Hcast
                eq_refl Hfresh) as Hloop.
  cbn [app List.length] in Hloop. unfold ColumnCount.
  unfold VarcharVector in *. rewrite Hloop. reflexivity.
Qed.

(** What the text writer is taken to do: it is built over the session
    state with an empty stream, and each operation appends to the stream:
    the separator, the rendering of the value at the row, the row end. *)
Variable Text_state : TextWriter -> PostgresCopyState.
Variable separator row_end : string.
Variable render : PostgresCopyState -> option string -> string.

Hypothesis new_writer :
  forall s,
    Text_state (PostgresTextWriter s) = s
    /\ Text_stream (PostgresTextWriter s) = EmptyString.
Hypothesis WriteSeparator_appends :
  forall w,
    Text_state (Text_WriteSeparator w) = Text_state w
    /\ Text_stream (Text_WriteSeparator w) = Text_stream w ++ separator.
Hypothesis WriteValue_appends :
  forall col r v w,
    nth_error col r = Some v ->
    Text_state (Text_WriteValue col r w) = Text_state w
    /\ Text_stream (Text_WriteValue col r w) =
       Text_stream w ++ render (Text_state w) v.
Hypothesis FinishRow_appends :
  forall w,
    Text_state (Text_FinishRow w) = Text_state w
    /\ Text_stream (Text_FinishRow w) = Text_stream w ++ row_end.

Lemma text_rows_run (chunk : DataChunk) (columns : list VarcharVector)
  (s : PostgresCopyState) :
  List.length columns = ColumnCount chunk ->
  Forall (fun col => List.length col = chunk_size chunk) columns ->
  exists writer,
    text_rows TextWriter Text_WriteSeparator Text_WriteValue Text_FinishRow
      chunk (mk_varchar_chunk columns (chunk_size chunk))
      (PostgresTextWriter s) = Some writer
    /\ Text_stream writer =
       text_buffer separator row_end (render s) columns (chunk_size chunk).
Proof.
  intros Hcount Hrows.
  set (R := fun (w : TextWriter) (text : string) =>
              Text_state w = s /\ Text_stream w = text).
  set (line := fun r =>
         String.concat separator (map (render s) (row_fields columns r))
           ++ row_end).
  destruct (for_loopM_sim R
              (fun r writer =>
                 writer <-
                   for_loopM
                     (fun c writer =>
                        let writer :=
                          if (0 <? c)%nat then Text_WriteSeparator writer
                          else writer in
                        col <- nth_error columns c ;;
                        ret (Text_WriteValue col r writer))
                     0 (ColumnCount chunk) writer ;;
                 ret (Text_FinishRow writer))
              (fun r acc => Some (acc ++ line r))
              (chunk_size chunk) 0 (PostgresTextWriter s) EmptyString)
    as [writer [text [Hw [Ht [_ Hstream]]]]].
  { exact (new_writer s). }
  { intros r w acc Hr [Hstate Hacc].
    set (segments := map (render s) (row_fields columns r)).
    destruct (for_loopM_sim R
                (fun c writer =>
                   let writer :=
                     if (0 <? c)%nat then Text_WriteSeparator writer
                     else writer in
                   col <- nth_error columns c ;;
                   ret (Text_WriteValue col r writer))
                (fun c acc =>
                   match nth_error segments c with
                   | Some x =>
                       Some ((if (0 <? c)%nat then acc ++ separator else acc)
                               ++ x)
                   | None => None
                   end)
                (ColumnCount chunk) 0 w acc)
      as [w' [acc' [Hw' [Hacc' [Hstate' Hstream']]]]].
    { now split. }
    { intros c w1 acc1 Hc [Hstate1 Hacc1].
      destruct (nth_error_lt columns c) as [col Hcol]; [lia|].
      assert (Hlen : List.length col = chunk_size chunk).
      { rewrite Forall_forall in Hrows. apply Hrows.
        now apply nth_error_In with c. }
      destruct (nth_error_lt col r) as [v Hv]; [lia|].
      assert (Hseg : nth_error segments c = Some (render s v)).
      { subst segments. unfold row_fields, VarcharVector in *.
        rewrite !nth_error_map, Hcol. cbn.
        now rewrite (nth_error_nth _ _ None Hv). }
      rewrite Hcol, Hseg. cbn [bind ret Monad_option].
      eexists. eexists. split; [reflexivity|]. split; [reflexivity|].
      destruct (0 <? c)%nat.
      - destruct (WriteSeparator_appends w1) as [Hs1 Hs2].
        destruct (WriteValue_appends col r v (Text_WriteSeparator w1) Hv)
          as [Hv1 Hv2].
        split; [congruence|]. rewrite Hv2, Hs2, Hs1, Hstate1, Hacc1.
        reflexivity.
      - destruct (WriteValue_appends col r v w1 Hv) as [Hv1 Hv2].
        split; [congruence|]. now rewrite Hv2, Hstate1, Hacc1. }
    rewrite Hw'. cbn [bind ret Monad_option].
    assert (Hjoin : acc' = acc ++ String.concat separator segments).
    { assert (Hn : ColumnCount chunk = List.length segments).
      { subst segments. unfold row_fields. now rewrite !length_map. }
      rewrite Hn in Hacc'.
      rewrite (join_loop separator) in Hacc'.
      - now injection Hacc' as <-.
      - intros i x a Hi. now rewrite Hi. }
    eexists. eexists. split; [reflexivity|]. split; [reflexivity|].
    destruct (FinishRow_appends w') as [Hf1 Hf2].
    split; [congruence|]. rewrite Hf2, Hstream', Hjoin. subst line.
    cbv beta. now rewrite append_assoc. }
  exists writer. split.
  - unfold text_rows. cbn [varchar_data]. exact Hw.
  - rewrite for_loopM_lines in Ht. injection Ht as <-.
    rewrite Hstream. reflexivity.
Qed.

(** The engine's cast returns one text row per input row. *)
Hypothesis Cast_row_count :
  forall id data size out,
    VectorOperations_Cast id data size = Some out -> List.length out = size.

(** X14.  A text batch.  When every column of the chunk is cast, and
    the casted chunk is new or has the chunk's column count, [CopyChunk]
    leaves in the casted chunk the cast columns and the chunk's row
    count, and hands [CopyData] one buffer for the whole chunk: for each
    row in order, the fields in column order with the separator between
    them (none before the first, none after the last), then the row end.
    The buffer is sent as it is, once per attempt; a chunk without rows
    still makes a send, of an empty buffer. *)
Theorem CopyChunk_text_batch :
  forall (chunk : DataChunk) (varchar_chunk : VarcharChunk)
         (columns : list VarcharVector) (w : World),
    format (state w) = TEXT ->
    List.length (varchar_data varchar_chunk) = 0
    \/ List.length (varchar_data varchar_chunk) = ColumnCount chunk ->
    cast_each
      (fun col =>
         CastToPostgresVarchar VectorOperations_Cast col (chunk_size chunk))
      (chunk_data chunk) = Some columns ->
    let buffer :=
      text_buffer separator row_end (render (state w)) columns
        (chunk_size chunk) in
    CopyChunk PQerrorMessage VectorOperations_Cast BinaryWriter
      PostgresBinaryWriter Binary_BeginRow Binary_WriteValue Binary_FinishRow
      Binary_stream TextWriter PostgresTextWriter Text_WriteSeparator
      Text_WriteValue Text_FinishRow Text_stream chunk varchar_chunk w =
    Some (CopyData PQerrorMessage buffer (String.length buffer) w,
          mk_varchar_chunk columns (chunk_size chunk))
    /\ (chunk_size chunk = 0 -> buffer = EmptyString).
Proof.
  intros chunk varchar_chunk columns w Hformat Hcount Hcast buffer.
  split.
  - unfold CopyChunk. rewrite Hformat.
    rewrite (cast_columns_run chunk varchar_chunk columns Hcount Hcast).
    cbn [bind Monad_option].
    destruct (text_rows_run chunk columns (state w)) as [writer [Hrows Hstream]].
    + unfold ColumnCount. now apply cast_each_length in Hcast.
    + rewrite Forall_forall. intros col Hcol.
      destruct (cast_each_In _ _ _ _ Hcast Hcol) as [input [_ Hinput]].
      now apply (CastToPostgresVarchar_row_count VectorOperations_Cast
                   Cast_row_count) in Hinput.
    + rewrite Hrows. cbn [bind ret Monad_option]. unfold CopyData_writer.
      rewrite Hstream. reflexivity.
  - intros Hsize. subst buffer. unfold text_buffer. now rewrite Hsize.
Qed.

End TextBatch.

(** *** Binary batches *)

Lemma column_loop_fold {W : Type} (g : Vector -> W -> W) :
  forall (suffix prefix : list Vector) (w : W),
    for_loopM
      (fun c w => col <- nth_error (prefix ++ suffix)%list c ;; ret (g col w))
      (List.length prefix) (List.length suffix) w =
    Some (fold_left (fun w col => g col w) suffix w).
Proof.
  induction suffix as [|col suffix IH]; intros prefix w; [reflexivity|].
  cbn [List.length for_loopM fold_left].
  rewrite nth_error_app2 by lia. rewrite Nat.sub_diag. cbn [nth_error].
  cbn [bind ret Monad_option].
  specialize (IH (prefix ++ [col])%list (g col w)).
  rewrite length_app, <- app_assoc in IH. cbn [List.length app] in IH.
  rewrite Nat.add_1_r in IH. exact IH.
Qed.

Lemma row_loop_fold {W : Type} (h : nat -> W -> option W) (h' : nat -> W -> W) :
  (forall r w, h r w = Some (h' r w)) ->
  forall n c w,
    for_loopM h c n w = Some (fold_left (fun w r => h' r w) (seq c n) w).
Proof.
  intros Hh. induction n as [|n IH]; intros c w; [reflexivity|].
  cbn [for_loopM seq fold_left]. rewrite Hh. apply IH.
Qed.

Section BinaryBatch.

Variable PQerrorMessage : PGconn -> string.
Variable VectorOperations_Cast :
  ScalarTypeId -> list (option scalar_t) -> nat -> option VarcharVector.
Variable BinaryWriter : Type.
Variable PostgresBinaryWriter : PostgresCopyState -> BinaryWriter.
Variable Binary_BeginRow : nat -> BinaryWriter -> BinaryWriter.
Variable Binary_WriteValue : Vector -> nat -> BinaryWriter -> BinaryWriter.
Variable Binary_FinishRow : BinaryWriter -> BinaryWriter.
Variable Binary_stream : BinaryWriter -> string.
Variable TextWriter : Type.
Variable PostgresTextWriter : PostgresCopyState -> TextWriter.
Variable Text_WriteSeparator : TextWriter -> TextWriter.
Variable Text_WriteValue : VarcharVector -> nat -> TextWriter -> TextWriter.
Variable Text_FinishRow : TextWriter -> TextWriter.
Variable Text_stream : TextWriter -> string.

(** X15.  A binary batch involves no cast and no casted chunk: whatever
    the columns hold and whatever the casted chunk is, [CopyChunk] writes,
    for each row in order, the row start with the column count, every
    column's value once in column order, and the row end, hands the
    stream to [CopyData] and returns the casted chunk as it got it.  In a
    session without a format it does nothing at all. *)
Theorem CopyChunk_binary_batch :
  forall (chunk : DataChunk) (varchar_chunk : VarcharChunk) (w : World),
    let copy :=
      CopyChunk PQerrorMessage VectorOperations_Cast BinaryWriter
        PostgresBinaryWriter Binary_BeginRow Binary_WriteValue
        Binary_FinishRow Binary_stream TextWriter PostgresTextWriter
        Text_WriteSeparator Text_WriteValue Text_FinishRow Text_stream chunk
        varchar_chunk w in
    let writer :=
      fold_left
        (fun writer r =>
           Binary_FinishRow
             (fold_left (fun writer col => Binary_WriteValue col r writer)
                (chunk_data chunk)
                (Binary_BeginRow (List.length (chunk_data chunk)) writer)))
        (seq 0 (chunk_size chunk)) (PostgresBinaryWriter (state w)) in
    (format (state w) = BINARY ->
       copy =
       Some (CopyData PQerrorMessage (Binary_stream writer)
               (String.length (Binary_stream writer)) w,
             varchar_chunk))
    /\ (format (state w) = OTHER_FORMAT ->
          copy = Some ((Returns tt, w), varchar_chunk)).
Proof.
  intros chunk varchar_chunk w copy writer. subst copy. unfold CopyChunk.
  split; intros ->; [|reflexivity].
  unfold binary_rows.
  rewrite (row_loop_fold _
             (fun r writer =>
                Binary_FinishRow
                  (fold_left
                     (fun writer col => Binary_WriteValue col r writer)
                     (chunk_data chunk)
                     (Binary_BeginRow (List.length (chunk_data chunk))
                        writer)))).
  - reflexivity.
  - intros r writer0. unfold ColumnCount.
    rewrite (column_loop_fold (fun col writer => Binary_WriteValue col r writer)
               (chunk_data chunk) []).
    reflexivity.
Qed.

End BinaryBatch.

End ChunkFacts.

(** ** More properties on concrete inputs *)

Module MoreRuns.
Import Quoting Casting Session Literal Reading Chunk.
Import QuotingFacts CastingFacts SessionFacts LiteralFacts DriverFacts.
Import ChunkFacts Runs.

Lemma Sample_Cast_answers :
  forall id data size,
    size <= List.length data ->
    exists out, Sample.Cast id data size = Some out.
Proof.
  intros id data size Hsize. unfold Sample.Cast. eexists.
  apply (for_loopM_rows _
           (fun r => match nth_error data r with
                     | Some row => option_map Sample.scalar_to_text row
                     | None => None
                     end)).
  intros r acc Hr. destruct (nth_error_lt data r) as [row Hrow]; [lia|].
  now rewrite Hrow.
Qed.

Lemma struct_row_determines_fields_witness :
  struct_row [[Some "a,b"]; [None]] 0 =
    struct_row [[None; Some "a,b"]; [Some "x"; None]] 1
  /\ [Some "a,b"; None] = [Some "a,b"; @None string].
Proof.
  split; [reflexivity|].
  apply (proj1 struct_row_determines_fields
           [[Some "a,b"]; [None]] [[None; Some "a,b"]; [Some "x"; None]] 0 1);
    reflexivity.
Defined.

Lemma list_text_NULL_is_written_as_null_witness :
  CastToPostgresVarchar Sample.Cast
    (ListVector [Some (mk_list_entry 0 2)]
       (ScalarVector VARCHAR [Some (string_val "a"); Some (string_val "NULL")])
       2) 1 =
  CastToPostgresVarchar Sample.Cast
    (ListVector [Some (mk_list_entry 0 2)]
       (ScalarVector VARCHAR [Some (string_val "a"); None]) 2) 1.
Proof.
  apply (list_text_NULL_is_written_as_null Sample.Cast
           [Some (mk_list_entry 0 2)] _ _ 2 1 [Some "a"] []); reflexivity.
Defined.

Lemma list_row_determines_elements_witness :
  list_row false [Some "a"; None] (mk_list_entry 0 2) =
    list_row false [Some "x"; Some "a"; Some "NULL"] (mk_list_entry 1 2)
  /\ Forall2 same_element [Some "a"; None] [Some "a"; Some "NULL"].
Proof.
  split; [reflexivity|].
  apply (list_row_determines_elements [Some "a"; None]
           [Some "x"; Some "a"; Some "NULL"] (mk_list_entry 0 2)
           (mk_list_entry 1 2)).
  - simpl; lia.
  - simpl; lia.
  - reflexivity.
Defined.

Lemma CastBlobToPostgres_round_trip_witness :
  exists out,
    CastBlobToPostgres [Some "AB"; None; Some EmptyString] 3 = Some out
    /\ Forall2 (fun row text => read_blob_row text = Some row)
         [Some "AB"; None; Some EmptyString] out.
Proof.
  destruct (CastBlobToPostgres_round_trip [Some "AB"; None; Some EmptyString] 3)
    as [out [Hout [Hback _]]]; [simpl; lia|].
  exists out. split; [exact Hout | exact Hback].
Defined.

Lemma list_of_blobs_is_quoted_witness :
  CastToPostgresVarchar Sample.Cast
    (ListVector [Some (mk_list_entry 0 2)]
       (BlobVector [Some (String (ascii_of_nat 10) EmptyString); None]) 2) 1 =
  Some [Some ("{" ++ String dquote "\\x0A" ++ String dquote ",NULL}")].
Proof.
  rewrite (list_of_blobs_is_quoted Sample.Cast).
  - reflexivity.
  - simpl; lia.
  - simpl; lia.
  - intros r e Hr He. destruct r as [|r]; [|lia].
    simpl in He. injection He as <-. simpl; lia.
Defined.

Lemma nested_literal_needs_quotes_witness :
  NeedsQuotes "(1,)" 4 = true.
Proof.
  apply (nested_literal_needs_quotes Sample.Cast
           (StructVector [true]
              [ScalarVector INTEGER [Some (int_val 1)];
               ScalarVector INTEGER [None]]) 1 [Some "(1,)"]
           ltac:(discriminate) eq_refl 0 "(1,)" eq_refl).
Defined.

Lemma CastToPostgresVarchar_total_witness :
  exists out,
    CastToPostgresVarchar Sample.Cast
      (ListVector [Some (mk_list_entry 0 1); None; Some (mk_list_entry 1 1)]
         (StructVector [true; false]
            [ScalarVector INTEGER [Some (int_val 1); None];
             BlobVector [None; Some "A"]]) 2) 3 = Some out
    /\ List.length out = 3.
Proof.
  apply (CastToPostgresVarchar_total Sample.Cast Sample_Cast_row_count
           Sample_Cast_answers).
  reflexivity.
Defined.

Lemma BeginCopyTo_header_only_for_binary_witness :
  let begin :=
    BeginCopyTo Sample.PQerrorMessage Sample.WriteQuoted
      Sample.BinaryWriter_Header Sample.no_settings BINARY EmptyString "t" []
      (mk_world (mk_conn [Sample.ok_result PGRES_COPY_IN] [0; 1]%Z [] [] [])
         Sample.idle_state) in
  fst begin = Returns tt
  /\ List.length (calls (conn (snd begin))) = 3
  /\ putCopyData_script (conn (snd begin)) = [].
Proof.
  destruct (BeginCopyTo_header_only_for_binary Sample.PQerrorMessage
              Sample.WriteQuoted Sample.BinaryWriter_Header Sample.no_settings
              EmptyString "t" [] (Sample.ok_result PGRES_COPY_IN) [] 1 1%Z []
              [] [] [] Sample.idle_state)
    as [Haccept _]; try discriminate.
  destruct (Haccept eq_refl) as [Hret [Hcalls [Hscript _]]].
  cbv zeta. split; [exact Hret|]. split; [|exact Hscript].
  exact (f_equal (@List.length PQcall) Hcalls).
Defined.

Lemma BeginCopyTo_unsupported_format_witness :
  BeginCopyTo Sample.PQerrorMessage Sample.WriteQuoted
    Sample.BinaryWriter_Header (Sample.setting (StringValue "?"))
    OTHER_FORMAT "s" "t" []
    (mk_world (mk_conn [Sample.ok_result PGRES_COPY_IN] [] [] [] [])
       (mk_copy_state TEXT false EmptyString)) =
  (Throws (InternalException "Unsupported type for postgres copy format"),
   mk_world (mk_conn [Sample.ok_result PGRES_COPY_IN] [] [] [] [])
     (mk_copy_state OTHER_FORMAT true "?")).
Proof.
  apply (BeginCopyTo_unsupported_format Sample.PQerrorMessage
           Sample.WriteQuoted Sample.BinaryWriter_Header).
  intros replacement_str [= <-] [i Hi].
  destruct i as [|[|i]]; discriminate.
Defined.


Lemma FinishCopyTo_footer_failure_witness :
  let finish :=
    FinishCopyTo Sample.PQerrorMessage Sample.BinaryWriter_Footer
      Sample.TextWriter_Footer
      (mk_world (mk_conn [] [0; -1]%Z [1%Z] [Sample.ok_result PGRES_COMMAND_OK] [])
         (mk_copy_state BINARY false EmptyString)) in
  fst finish =
    Throws (InternalException
              "Error during PQputCopyData: connection lost after 2 calls")
  /\ putCopyEnd_script (conn (snd finish)) = [1%Z].
Proof.
  pose proof (FinishCopyTo_footer_failure Sample.PQerrorMessage
                Sample.BinaryWriter_Footer Sample.TextWriter_Footer 1 [] []
                [1%Z] [Sample.ok_result PGRES_COMMAND_OK] []
                (mk_copy_state BINARY false EmptyString)
                ltac:(discriminate)) as Hrun.
  cbv zeta. split.
  - exact (f_equal fst Hrun).
  - exact (f_equal (fun x => putCopyEnd_script (conn (snd x))) Hrun).
Defined.

Lemma FinishCopyTo_no_footer_without_format_witness :
  calls
    (conn
       (snd (FinishCopyTo Sample.PQerrorMessage Sample.BinaryWriter_Footer
               Sample.TextWriter_Footer
               (mk_world
                  (mk_conn [] [1%Z] [1%Z] [Sample.ok_result PGRES_COMMAND_OK]
                     []) Sample.idle_state)))) =
  [PQputCopyEnd; PQgetResult].
Proof.
  destruct (FinishCopyTo_no_footer_without_format Sample.PQerrorMessage
              Sample.BinaryWriter_Footer Sample.TextWriter_Footer [] [1%Z] 1%Z
              [] (Sample.ok_result PGRES_COMMAND_OK) [] [] Sample.idle_state
              eq_refl) as [_ [Hcalls _]].
  exact Hcalls.
Defined.

Lemma FinishCopyTo_twice_witness :
  let finish :=
    FinishCopyTo Sample.PQerrorMessage Sample.BinaryWriter_Footer
      Sample.TextWriter_Footer in
  let w :=
    mk_world
      (mk_conn [] [1; 1]%Z [1; 1]%Z
         [Sample.ok_result PGRES_COMMAND_OK; Sample.ok_result PGRES_COMMAND_OK]
         []) (mk_copy_state TEXT false EmptyString) in
  List.length (calls (conn (snd (finish (snd (finish w)))))) = 6.
Proof.
  destruct (FinishCopyTo_twice Sample.PQerrorMessage
              Sample.BinaryWriter_Footer Sample.TextWriter_Footer 1%Z 1%Z []
              [] [] (Sample.ok_result PGRES_COMMAND_OK)
              (Sample.ok_result PGRES_COMMAND_OK) [] []
              (mk_copy_state TEXT false EmptyString)
              ltac:(discriminate) ltac:(discriminate) ltac:(discriminate)
              ltac:(discriminate) ltac:(discriminate) eq_refl)
    as [_ [_ Hcalls]].
  exact (f_equal (@List.length PQcall) Hcalls).
Defined.

Lemma CopyData_size_narrowed_witness :
  exists nbytes,
    calls (conn (snd (CopyData Sample.PQerrorMessage "abc" 3
                        (mk_world (mk_conn [] [1%Z] [] [] [])
                           Sample.idle_state)))) =
      [PQputCopyData "abc" nbytes]
    /\ nbytes = 3%Z.
Proof.
  destruct (CopyData_size_narrowed Sample.PQerrorMessage "abc" 3 1%Z [] [] []
              [] [] Sample.idle_state) as [nbytes [Hcalls [_ [Hsmall _]]]];
    [discriminate|].
  exists nbytes. split; [exact Hcalls|]. apply Hsmall. reflexivity.
Defined.

(** Two rows, two columns: the integers 1 and NULL, the texts x and y. *)
Lemma CopyChunk_text_batch_witness :
  CopyChunk Sample.PQerrorMessage Sample.Cast string (fun _ => EmptyString)
    (fun _ w => w) (fun _ _ w => w) (fun w => w) (fun w => w) sample_writer
    sample_new sample_WriteSeparator sample_WriteValue sample_FinishRow snd
    (mk_chunk
       [ScalarVector INTEGER [Some (int_val 1); None];
        ScalarVector VARCHAR [Some (string_val "x"); Some (string_val "y")]]
       2)
    (mk_varchar_chunk [] 0)
    (mk_world (mk_conn [] [1%Z] [] [] []) (mk_copy_state TEXT false EmptyString))
  =
  Some ((Returns tt,
         mk_world
           (mk_conn [] [] [] []
              [PQputCopyData
                 ("1" ++ tab ++ "x" ++ newline ++ String backspace tab ++ "y"
                    ++ newline) 8])
           (mk_copy_state TEXT false EmptyString)),
        mk_varchar_chunk [[Some "1"; None]; [Some "x"; Some "y"]] 2).
Proof.
  destruct (CopyChunk_text_batch Sample.PQerrorMessage Sample.Cast string
              (fun _ => EmptyString) (fun _ w => w) (fun _ _ w => w)
              (fun w => w) (fun w => w) sample_writer sample_new
              sample_WriteSeparator sample_WriteValue sample_FinishRow
              snd fst tab newline sample_render
              ltac:(intros; split; reflexivity)
              ltac:(intros; split; reflexivity)
              ltac:(intros col r v w H; unfold sample_WriteValue;
                    rewrite H; split; reflexivity)
              ltac:(intros; split; reflexivity)
              Sample_Cast_row_count
              (mk_chunk
                 [ScalarVector INTEGER [Some (int_val 1); None];
                  ScalarVector VARCHAR
                    [Some (string_val "x"); Some (string_val "y")]] 2)
              (mk_varchar_chunk [] 0)
              [[Some "1"; None]; [Some "x"; Some "y"]]
              (mk_world (mk_conn [] [1%Z] [] [] [])
                 (mk_copy_state TEXT false EmptyString))
              eq_refl (or_introl eq_refl) eq_refl) as [Hrun _].
  exact Hrun.
Defined.

Lemma CopyChunk_binary_batch_witness :
  CopyChunk Sample.PQerrorMessage Sample.Cast string (fun _ => EmptyString)
    (fun n w => w ++ "[") (fun _ _ w => w ++ "v") (fun w => w ++ "]")
    (fun w => w) sample_writer sample_new sample_WriteSeparator
    sample_WriteValue sample_FinishRow snd
    (mk_chunk [BlobVector []; BlobVector []] 2)
    (mk_varchar_chunk [[Some "kept"]] 1)
    (mk_world (mk_conn [] [1%Z] [] [] [])
       (mk_copy_state BINARY false EmptyString)) =
  Some ((Returns tt,
         mk_world (mk_conn [] [] [] [] [PQputCopyData "[vv][vv]" 8])
           (mk_copy_state BINARY false EmptyString)),
        mk_varchar_chunk [[Some "kept"]] 1).
Proof.
  exact (proj1 (CopyChunk_binary_batch Sample.PQerrorMessage Sample.Cast
                  string (fun _ => EmptyString) (fun n w => w ++ "[")
                  (fun _ _ w => w ++ "v") (fun w => w ++ "]") (fun w => w)
                  sample_writer sample_new sample_WriteSeparator
                  sample_WriteValue sample_FinishRow snd
                  (mk_chunk [BlobVector []; BlobVector []] 2)
                  (mk_varchar_chunk [[Some "kept"]] 1)
                  (mk_world (mk_conn [] [1%Z] [] [] [])
                     (mk_copy_state BINARY false EmptyString)))
           eq_refl).
Defined.

End MoreRuns.
